(** * ipo_monitor.py: a shallow embedding and its verified properties

    The program fetches the IPO calendar of the day, keeps the records whose
    offer amount (price times number of shares) reaches USD 200 million, and
    mails a summary.  This file embeds [get_todays_ipos], [filter_large_ipos],
    [send_email] and [main] of [src/ipo_monitor.py].

    Modelling choices.
    - A JSON value decoded by Python is a [pyval]; a JSON object is a finite
      map from strings to values.
    - A Python [float] is an IEEE 754 binary64 number, here a [spec_float]
      with precision 53 and maximal exponent 1024; a Python [int] is a [Z].
    - A Python exception is a constructor of [exn]; code that may raise
      returns a [result].
    - Text is a [string] of 8-bit characters (code points below 256); the
      conversions [float(s)] and [int(s)] follow CPython's grammar on such
      text.  The limit on the number of digits that [int(s)] accepts (4300
      by default since Python 3.11) is not modelled.
    - What the program reads from outside (environment variables, clock,
      HTTP server, mail server) is a [world]; what it prints is a list of
      lines.  Building the MIME message, lines 90-94, is taken not to raise;
      connecting, logging in and sending may. *)

From Stdlib Require Import ZArith List Bool Ascii String Lia.
From Stdlib Require Import Floats.SpecFloat.
From stdpp Require Import base option list gmap strings pretty.

Set Warnings "-register-all".

Local Open Scope string_scope.
Local Open Scope Z_scope.

(** ** Exceptions and results *)

Inductive exn : Type :=
  | ValueError
  | TypeError
  | AttributeError
  | OverflowError
  | JSONDecodeError
  | RequestException.

Inductive result (A : Type) : Type :=
  | Ok (a : A)
  | Raise (e : exn).

Arguments Ok {A} a.
Arguments Raise {A} e.

(** [result] is a monad: [x ← r; k] runs [k] on the value of [r] and stops
    at the first exception, as Python does. *)
#[global] Instance result_ret : MRet result := fun _ a => Ok a.
#[global] Instance result_bind : MBind result := fun _ _ k r =>
  match r with
  | Ok a => k a
  | Raise e => Raise e
  end.
#[global] Instance result_fmap : FMap result := fun _ _ f r =>
  match r with
  | Ok a => Ok (f a)
  | Raise e => Raise e
  end.

(** ** Python values *)

Inductive pyval : Type :=
  | PNone
  | PBool (b : bool)
  | PInt (n : Z)
  | PFloat (f : spec_float)
  | PStr (s : string)
  | PList (l : list pyval)
  | PDict (d : gmap string pyval).

(** ** Python floats

    [float] arithmetic is binary64 arithmetic: every operation rounds to
    nearest, ties to even, and overflows to an infinity. *)

Module Float.

Definition prec : Z := 53.
Definition emax : Z := 1024.

Definition add : spec_float -> spec_float -> spec_float := SFadd prec emax.
Definition mul : spec_float -> spec_float -> spec_float := SFmul prec emax.
Definition div : spec_float -> spec_float -> spec_float := SFdiv prec emax.

(** The float nearest to an integer. *)
Definition of_Z (n : Z) : spec_float := binary_normalize prec emax n 0 false.

(** The least positive integer that rounds to an infinity: the midpoint
    between the largest finite double, [2^1024 - 2^971], and [2^1024]. *)
Definition overflow_bound : Z := 2 ^ 1024 - 2 ^ 970.

(** Conversion of a Python [int], as in [float(n)] and in mixed
    arithmetic: it raises [OverflowError] instead of giving an infinity. *)
Definition of_int (n : Z) : result spec_float :=
  if Z.abs n <? overflow_bound then Ok (of_Z n) else Raise OverflowError.

(** The float nearest to [m * 10^e10], with sign [s]: what [float(str)]
    gives for a decimal literal. *)
Definition of_decimal (s : bool) (m : Z) (e10 : Z) : spec_float :=
  match m with
  | Zpos p =>
      match e10 with
      | Zneg k => div (S754_finite s p 0) (S754_finite false (10 ^ k)%positive 0)
      | _ => binary_round prec emax s (p * Z.to_pos (10 ^ e10))%positive 0
      end
  | _ => S754_zero s
  end.

(** [int(x)]: truncation toward zero. *)
Definition to_int (x : spec_float) : result Z :=
  match x with
  | S754_nan => Raise ValueError
  | S754_infinity _ => Raise OverflowError
  | S754_zero _ => Ok 0
  | S754_finite s m e =>
      Ok (cond_Zopp s
            match e with
            | Zneg k => Zpos m / 2 ^ Zpos k
            | _ => Zpos m * 2 ^ e
            end)
  end.

(** Python compares a float with an int exactly, without rounding the
    int: [None] when the float is a NaN. *)
Definition compare_int (x : spec_float) (n : Z) : option comparison :=
  match x with
  | S754_nan => None
  | S754_infinity s => Some (if s then Lt else Gt)
  | S754_zero _ => Some (0 ?= n)
  | S754_finite s m e =>
      Some match e with
           | Zneg k => cond_Zopp s (Zpos m) ?= n * 2 ^ Zpos k
           | _ => cond_Zopp s (Zpos m) * 2 ^ e ?= n
           end
  end.

Definition is_zero (x : spec_float) : bool :=
  match x with S754_zero _ => true | _ => false end.

Definition is_finite (x : spec_float) : bool :=
  match x with S754_zero _ | S754_finite _ _ _ => true | _ => false end.

End Float.

(** ** Text: the string operations the program uses *)

Definition code (c : ascii) : N := N_of_ascii c.

(** The characters that [float] and [int] strip as white space: tab to
    carriage return, space, and the two spaces above 127. *)
Definition is_space (c : ascii) : bool :=
  let n := code c in
  ((9 <=? n) && (n <=? 13) || (n =? 32) || (n =? 133) || (n =? 160))%N.

Definition is_digit (c : ascii) : bool :=
  let n := code c in ((48 <=? n) && (n <=? 57))%N.

Definition digit_val (c : ascii) : Z := Z.of_N (code c) - 48.

Definition to_lower (c : ascii) : ascii :=
  let n := code c in
  if ((65 <=? n) && (n <=? 90))%N then ascii_of_N (n + 32) else c.

Definition is_char (c d : ascii) : bool := (code c =? code d)%N.

Fixpoint drop_spaces (l : list ascii) : list ascii :=
  match l with
  | c :: l' => if is_space c then drop_spaces l' else l
  | [] => []
  end.

Definition strip (l : list ascii) : list ascii :=
  rev (drop_spaces (rev (drop_spaces l))).

(** Digit grouping with [_]: an underscore must stand between two digits.
    [prev] is the character read before [l]. *)
Fixpoint strip_underscores (prev : ascii) (l : list ascii) : option (list ascii) :=
  match l with
  | [] => if is_char prev "_" then None else Some []
  | c :: l' =>
      if is_char c "_" then
        if is_digit prev then strip_underscores c l' else None
      else if is_char prev "_" && negb (is_digit c) then None
      else cons c <$> strip_underscores c l'
  end.

Definition take_sign (l : list ascii) : bool * list ascii :=
  match l with
  | c :: l' =>
      if is_char c "-" then (true, l')
      else if is_char c "+" then (false, l')
      else (false, l)
  | [] => (false, [])
  end.

Fixpoint span_digits (l : list ascii) : list ascii * list ascii :=
  match l with
  | c :: l' =>
      if is_digit c then let '(ds, r) := span_digits l' in (c :: ds, r)
      else ([], l)
  | [] => ([], [])
  end.

Definition digits_to_Z (ds : list ascii) : Z :=
  fold_left (fun acc c => 10 * acc + digit_val c) ds 0.

(** What may follow the mantissa of a decimal literal: nothing, or [e] or
    [E], an optional sign and at least one digit. *)
Definition parse_exponent (l : list ascii) : option Z :=
  match l with
  | [] => Some 0
  | c :: l' =>
      if is_char (to_lower c) "e" then
        let '(s, l'') := take_sign l' in
        match span_digits l'' with
        | ((_ :: _) as ds, []) => Some (cond_Zopp s (digits_to_Z ds))
        | _ => None
        end
      else None
  end.

(** An unsigned decimal literal [digits [. digits] [exponent]] with at least
    one digit: its digits as an integer and its power of ten. *)
Definition parse_decimal (l : list ascii) : option (Z * Z) :=
  let '(ip, r1) := span_digits l in
  let '(fp, r2) :=
    match r1 with
    | c :: r => if is_char c "." then span_digits r else ([], r1)
    | [] => ([], r1)
    end in
  match (ip ++ fp)%list with
  | [] => None
  | ds => e ← parse_exponent r2; Some (digits_to_Z ds, e - Z.of_nat (length fp))
  end.

Definition lower_is (l : list ascii) (w : string) : bool :=
  if decide (map to_lower l = list_ascii_of_string w) then true else false.

(** [float(s)] for a string [s]. *)
Definition float_of_string (s : string) : result spec_float :=
  match strip_underscores "000" (strip (list_ascii_of_string s)) with
  | None => Raise ValueError
  | Some l =>
      let '(sg, body) := take_sign l in
      if lower_is body "inf" || lower_is body "infinity" then Ok (S754_infinity sg)
      else if lower_is body "nan" then Ok S754_nan
      else match parse_decimal body with
           | Some (m, e) => Ok (Float.of_decimal sg m e)
           | None => Raise ValueError
           end
  end.

(** [int(s)] for a string [s], in base ten. *)
Definition int_of_string (s : string) : result Z :=
  let '(sg, body) := take_sign (strip (list_ascii_of_string s)) in
  match strip_underscores "000" body with
  | Some ((_ :: _) as ds) =>
      if forallb is_digit ds then Ok (cond_Zopp sg (digits_to_Z ds))
      else Raise ValueError
  | _ => Raise ValueError
  end.

(** [c in s] for a one-character [c]. *)
Fixpoint str_contains (c : ascii) (s : string) : bool :=
  match s with
  | EmptyString => false
  | String d s' => is_char c d || str_contains c s'
  end.

(** [s.split(sep)] for a one-character separator. *)
Fixpoint str_split (sep : ascii) (s : string) : list string :=
  match s with
  | EmptyString => [EmptyString]
  | String c s' =>
      if is_char c sep then EmptyString :: str_split sep s'
      else match str_split sep s' with
           | h :: t => String c h :: t
           | [] => [String c EmptyString]
           end
  end.

(** ** Python's built-in operations on decoded JSON values *)

(** Truth value of [v], as tested by [or], [if] and [not]. *)
Definition truthy (v : pyval) : bool :=
  match v with
  | PNone => false
  | PBool b => b
  | PInt n => negb (n =? 0)
  | PFloat f => negb (Float.is_zero f)
  | PStr s => negb (if decide (s = EmptyString) then true else false)
  | PList l => match l with [] => false | _ => true end
  | PDict d => negb (if decide (d = ∅) then true else false)
  end.

(** [v or w] *)
Definition py_or (v w : pyval) : pyval := if truthy v then v else w.

(** [ipo.get(k)]: [None] when the key is absent; only a dict has [get]. *)
Definition py_get (ipo : pyval) (k : string) : result pyval :=
  match ipo with
  | PDict d => Ok (default PNone (d !! k))
  | _ => Raise AttributeError
  end.

(** [float(v)] *)
Definition py_float (v : pyval) : result spec_float :=
  match v with
  | PBool b => Ok (Float.of_Z (if b then 1 else 0))
  | PInt n => Float.of_int n
  | PFloat f => Ok f
  | PStr s => float_of_string s
  | PNone | PList _ | PDict _ => Raise TypeError
  end.

(** [int(v)] *)
Definition py_int (v : pyval) : result Z :=
  match v with
  | PBool b => Ok (if b then 1 else 0)
  | PInt n => Ok n
  | PFloat f => Float.to_int f
  | PStr s => int_of_string s
  | PNone | PList _ | PDict _ => Raise TypeError
  end.

(** The numbers the filter computes with: an [int] or a [float]. *)
Inductive number : Type :=
  | NInt (n : Z)
  | NFloat (f : spec_float).

(** [x * n] for an int [n]: int arithmetic is exact, float arithmetic first
    converts [n]. *)
Definition num_mul_int (x : number) (n : Z) : result number :=
  match x with
  | NInt a => Ok (NInt (a * n))
  | NFloat f => fn ← Float.of_int n; Ok (NFloat (Float.mul f fn))
  end.

(** [x >= n] for an int [n]; a NaN compares false. *)
Definition num_ge_int (x : number) (n : Z) : bool :=
  match x with
  | NInt a => n <=? a
  | NFloat f =>
      match Float.compare_int f n with
      | Some (Eq | Gt) => true
      | _ => false
      end
  end.

(** ** The program *)

Definition OFFER_AMOUNT_THRESHOLD : Z := 200000000.

(** The dict that [filter_large_ipos] appends for a qualifying record. *)
Record qualifying_ipo : Type := {
  symbol : pyval;
  company : pyval;
  date : pyval;
  price : number;
  shares : Z;
  offer_amount : number;
  exchange : pyval
}.

(** [isinstance(price, str) and "-" in price]: the text of a price range. *)
Definition price_range (price : pyval) : option string :=
  match price with
  | PStr s => if str_contains "-" s then Some s else None
  | _ => None
  end.

(** The working price, lines 42-46, from the value [price] of line 38. *)
Definition working_price (price : pyval) : result number :=
  match price_range price with
  | Some s =>
      match str_split "-" s with
      | [low; high] =>
          l ← float_of_string low;
          h ← float_of_string high;
          Ok (NFloat (Float.div (Float.add l h) (Float.of_Z 2)))
      | _ => Raise ValueError
      end
  | None =>
      if truthy price then NFloat <$> py_float price else Ok (NInt 0)
  end.

(** The share count, line 48, from the value [shares] of line 39. *)
Definition working_shares (shares : pyval) : result Z :=
  if truthy shares then py_int shares else Ok 0.

(** One turn of the loop of [filter_large_ipos], lines 37-60:
    [qualifying_ipos] is the list built so far. *)
Definition filter_step (qualifying_ipos : list qualifying_ipo) (ipo : pyval)
  : result (list qualifying_ipo) :=
  raw_price ← py_get ipo "price";
  let price := py_or raw_price (PInt 0) in
  raw_shares ← py_get ipo "numberOfShares";
  let shares := py_or raw_shares (PInt 0) in
  price ← working_price price;
  shares ← working_shares shares;
  offer_amount ← num_mul_int price shares;
  if num_ge_int offer_amount OFFER_AMOUNT_THRESHOLD then
    symbol ← py_get ipo "symbol";
    company ← py_get ipo "name";
    date ← py_get ipo "date";
    exchange ← py_get ipo "exchange";
    Ok (qualifying_ipos ++ [{| symbol := symbol; company := company; date := date;
                               price := price; shares := shares;
                               offer_amount := offer_amount;
                               exchange := exchange |}])%list
  else Ok qualifying_ipos.

(** A [for] loop over a list whose body may raise. *)
Fixpoint for_each {A S} (body : S -> A -> result S) (l : list A) (s : S) : result S :=
  match l with
  | [] => Ok s
  | x :: l' => s' ← body s x; for_each body l' s'
  end.

Definition filter_large_ipos (ipos : list pyval) : result (list qualifying_ipo) :=
  for_each filter_step ipos [].

(** ** The outside world *)

(** Programs that print: the lines written to standard output, then the
    value returned or the exception raised. *)
Definition io (A : Type) : Type := list string * result A.

#[global] Instance io_ret : MRet io := fun _ a => ([], Ok a).
#[global] Instance io_bind : MBind io := fun _ _ k m =>
  match m with
  | (out, Ok a) => let '(out', r) := k a in ((out ++ out')%list, r)
  | (out, Raise e) => (out, Raise e)
  end.

Definition print (line : string) : io unit := ([line], Ok tt).
Definition lift {A} (r : result A) : io A := ([], r).

(** What [requests.get] does: it returns a response, whose [json()] decodes
    the body or raises, or it raises itself (no connection, timeout...). *)
Inductive http_outcome : Type :=
  | Response (status_code : Z) (json : result pyval)
  | NoResponse.

Record message : Type := {
  msg_from : option string;
  msg_to : option string;
  msg_subject : string;
  msg_body : string
}.

(** Everything a run reads from outside: the environment variables, the
    clock at its three readings, the HTTP server and the mail server.
    [smtp] gives the text of the exception raised while connecting, logging
    in or sending, if any. *)
Record world : Type := {
  FINNHUB_API_KEY : option string;
  EMAIL_SENDER : option string;
  EMAIL_PASSWORD : option string;
  EMAIL_RECEIVER : option string;
  now_at_start : string;
  today_at_fetch : string;
  today_at_send : string;
  http_get : string -> http_outcome;
  smtp : message -> option string
}.

(** [str(v)] for an environment variable, which is [None] when unset. *)
Definition str_env (v : option string) : string := default "None" v.

(** [str(n)] for an int. *)
Definition str_int (n : Z) : string := pretty n.

(** [len(v)] *)
Definition py_len (v : pyval) : result Z :=
  match v with
  | PStr s => Ok (Z.of_nat (String.length s))
  | PList l => Ok (Z.of_nat (length l))
  | PDict d => Ok (Z.of_nat (size d))
  | PNone | PBool _ | PInt _ | PFloat _ => Raise TypeError
  end.

(** The items that [for ... in v] visits: the elements of a list, the
    characters of a string, the keys of a dict. *)
Definition py_iter (v : pyval) : result (list pyval) :=
  match v with
  | PList l => Ok l
  | PStr s => Ok ((fun c => PStr (String c EmptyString)) <$> list_ascii_of_string s)
  | PDict d => Ok (PStr <$> (map_to_list d).*1)
  | PNone | PBool _ | PInt _ | PFloat _ => Raise TypeError
  end.

(** [data.get("ipoCalendar", [])] *)
Definition get_calendar (data : pyval) : result pyval :=
  match data with
  | PDict d => Ok (default (PList []) (d !! "ipoCalendar"))
  | _ => Raise AttributeError
  end.

Definition fetch_url (w : world) : string :=
  "https://finnhub.io/api/v1/calendar/ipo?from=" ++ today_at_fetch w
  ++ "&to=" ++ today_at_fetch w ++ "&token=" ++ str_env (FINNHUB_API_KEY w).

Definition get_todays_ipos (w : world) : io pyval :=
  match http_get w (fetch_url w) with
  | NoResponse => lift (Raise RequestException)
  | Response status_code json =>
      if status_code =? 200 then
        lift (data ← json; get_calendar data)
      else
        _ ← print ("Error fetching IPO data: " ++ str_int status_code);
        mret (PList [])
  end.

Section Notifier.

(** Python's own formatting of values, which the message body uses:
    [py_str v] is [str(v)] and [py_format x spec] is [format(x, spec)]. *)
Variable py_str : pyval -> string.
Variable py_format : number -> string -> string.

Definition newline : string := String "010" EmptyString.

Definition rule : string :=
  "━━━━━━━━━━━━━━━━━━━━━━━━━━━━━━".

(** The block of lines 77-87 for one record. *)
Definition block (ipo : qualifying_ipo) : string :=
  newline ++ rule ++ newline
  ++ "Ticker: " ++ py_str (symbol ipo) ++ newline
  ++ "Company: " ++ py_str (company ipo) ++ newline
  ++ "IPO Date: " ++ py_str (date ipo) ++ newline
  ++ "Price: $" ++ py_format (price ipo) ".2f" ++ newline
  ++ "Shares Offered: " ++ py_format (NInt (shares ipo)) "," ++ newline
  ++ "Offer Amount: $" ++ py_format (offer_amount ipo) ",.2f" ++ newline
  ++ "Exchange: " ++ py_str (exchange ipo) ++ newline
  ++ rule ++ newline.

Definition email_subject (today : string) (qualifying_ipos : list qualifying_ipo) : string :=
  match qualifying_ipos with
  | [] => "IPO Monitor - No Large IPOs Today (" ++ today ++ ")"
  | _ => "IPO Alert - " ++ str_int (Z.of_nat (length qualifying_ipos))
         ++ " Large IPO(s) Today (" ++ today ++ ")"
  end.

Definition email_body (qualifying_ipos : list qualifying_ipo) : string :=
  match qualifying_ipos with
  | [] => "No IPOs with offer amount above USD 200 million are scheduled for today."
  | _ => fold_left (fun body ipo => body ++ block ipo) qualifying_ipos
           ("The following IPOs meet the criteria (Offer Amount > USD 200M):"
            ++ newline ++ newline)
  end.

Definition send_email (w : world) (qualifying_ipos : list qualifying_ipo) : io unit :=
  let today := today_at_send w in
  let msg := {| msg_from := EMAIL_SENDER w;
                msg_to := EMAIL_RECEIVER w;
                msg_subject := email_subject today qualifying_ipos;
                msg_body := email_body qualifying_ipos |} in
  match smtp w msg with
  | None => print ("Email sent successfully to " ++ str_env (EMAIL_RECEIVER w))
  | Some e => print ("Failed to send email: " ++ e)
  end.

Definition banner : string := "==================================================".

Definition main (w : world) : io unit :=
  _ ← print ("Running IPO Monitor at " ++ now_at_start w);
  _ ← print banner;
  ipos ← get_todays_ipos w;
  n ← lift (py_len ipos);
  _ ← print ("Found " ++ str_int n ++ " IPO(s) scheduled for today");
  items ← lift (py_iter ipos);
  qualifying_ipos ← lift (filter_large_ipos items);
  _ ← print ("Found " ++ str_int (Z.of_nat (length qualifying_ipos))
             ++ " IPO(s) above $200M threshold");
  _ ← send_email w qualifying_ipos;
  _ ← print banner;
  print "IPO Monitor completed successfully".

(** The exit status of the interpreter after [main()]: 0 when it returns,
    1 when an exception reaches the top level. *)
Definition exit_status (run : io unit) : Z :=
  match run.2 with
  | Ok _ => 0
  | Raise _ => 1
  end.

End Notifier.

(** * Definitions used to state the properties *)

(** ** What one record contributes *)

(** The filter is read record by record: [normalize] gives the working
    price, the share count and the offer amount of a record, and [emitted]
    the dicts it adds to the output (one or none).  These definitions state
    what to expect; the lemmas below compare the loop of the source with
    them.  [field ipo k] is [ipo.get(k)] on a dict. *)
Definition field (ipo : pyval) (k : string) : pyval :=
  match ipo with
  | PDict d => default PNone (d !! k)
  | _ => PNone
  end.

Definition normalized_price (ipo : pyval) : result number :=
  working_price (py_or (field ipo "price") (PInt 0)).

Definition normalized_shares (ipo : pyval) : result Z :=
  working_shares (py_or (field ipo "numberOfShares") (PInt 0)).

Definition normalize (ipo : pyval) : result (number * Z * number) :=
  match ipo with
  | PDict _ =>
      p ← normalized_price ipo;
      n ← normalized_shares ipo;
      a ← num_mul_int p n;
      Ok (p, n, a)
  | _ => Raise AttributeError
  end.

Definition emit (ipo : pyval) (t : number * Z * number) : qualifying_ipo :=
  {| symbol := field ipo "symbol"; company := field ipo "name";
     date := field ipo "date"; price := t.1.1; shares := t.1.2;
     offer_amount := t.2; exchange := field ipo "exchange" |}.

Definition num_is_zero (a : number) : bool :=
  match a with
  | NInt z => z =? 0
  | NFloat f => Float.is_zero f
  end.

Definition meets_threshold (t : number * Z * number) : bool :=
  num_ge_int t.2 OFFER_AMOUNT_THRESHOLD.

Definition emitted (ipo : pyval) : result (list qualifying_ipo) :=
  t ← normalize ipo;
  Ok (if meets_threshold t then [emit ipo t] else []).

(** The outputs of the records of a list, one after the other; the first
    exception, if any. *)
Fixpoint collect (ipos : list pyval) : result (list qualifying_ipo) :=
  match ipos with
  | [] => Ok []
  | ipo :: rest => a ← emitted ipo; b ← collect rest; Ok (a ++ b)%list
  end.

(** [sign_is s x]: the sign bit of [x] is [s], when [x] has one. *)
Definition sign_is (s : bool) (x : spec_float) : Prop :=
  match x with
  | S754_nan => True
  | S754_zero s' | S754_infinity s' | S754_finite s' _ _ => s' = s
  end.

(** Text that [float] accepts. *)
Definition float_accepts (s : string) : bool :=
  match float_of_string s with Ok _ => true | Raise _ => false end.




(** The first line that [main] prints. *)
Definition start_line (w : world) : string :=
  "Running IPO Monitor at " ++ now_at_start w.

(** The line that [send_email] prints. *)
Definition mail_line (w : world) (msg : message) : string :=
  match smtp w msg with
  | None => "Email sent successfully to " ++ str_env (EMAIL_RECEIVER w)
  | Some e => "Failed to send email: " ++ e
  end.

(** The mean of two floats as the source computes it, [(l + h) / 2]. *)
Definition float_mean (l h : spec_float) : spec_float :=
  Float.div (Float.add l h) (Float.of_Z 2).

(** The dict that a record contributes to the output, if any. *)
Definition kept (ipo : pyval) : option qualifying_ipo :=
  match normalize ipo with
  | Ok t => if meets_threshold t then Some (emit ipo t) else None
  | Raise _ => None
  end.

Definition sign_bit (x : spec_float) : bool :=
  match x with
  | S754_zero s | S754_infinity s | S754_finite s _ _ => s
  | S754_nan => false
  end.

Section Report.

Variable py_str : pyval -> string.
Variable py_format : number -> string -> string.

(** The message that [send_email] hands to the mail server. *)
Definition message_of (w : world) (qualifying_ipos : list qualifying_ipo) : message :=
  {| msg_from := EMAIL_SENDER w;
     msg_to := EMAIL_RECEIVER w;
     msg_subject := email_subject (today_at_send w) qualifying_ipos;
     msg_body := email_body py_str py_format qualifying_ipos |}.

(** What [main] does once the fetcher has returned [ipos]. *)
Definition after_fetch (w : world) (ipos : pyval) : io unit :=
  n ← lift (py_len ipos);
  _ ← print ("Found " ++ str_int n ++ " IPO(s) scheduled for today");
  items ← lift (py_iter ipos);
  qualifying_ipos ← lift (filter_large_ipos items);
  _ ← print ("Found " ++ str_int (Z.of_nat (length qualifying_ipos))
             ++ " IPO(s) above $200M threshold");
  _ ← send_email py_str py_format w qualifying_ipos;
  _ ← print banner;
  print "IPO Monitor completed successfully".

End Report.

(** ** Definitions for further properties *)

Definition is_dict (v : pyval) : bool :=
  match v with PDict _ => true | _ => false end.

(** A list or an object: what [float] and [int] refuse with [TypeError]. *)
Definition is_container (v : pyval) : bool :=
  match v with PList _ | PDict _ => true | _ => false end.

(** The values that [len] accepts. *)
Definition has_len (v : pyval) : bool :=
  match v with PStr _ | PList _ | PDict _ => true | _ => false end.

(** The members of an object. *)
Definition fields_of (ipo : pyval) : gmap string pyval :=
  match ipo with PDict d => d | _ => ∅ end.

(** The keys that [filter_large_ipos] looks up, lines 38-59. *)
Definition read_keys : list string :=
  ["price"; "numberOfShares"; "symbol"; "name"; "date"; "exchange"].

(** The number of occurrences of a character in a text. *)
Fixpoint count_char (c : ascii) (s : string) : nat :=
  match s with
  | EmptyString => O
  | String d s' => (if is_char d c then 1 else 0) + count_char c s'
  end.

(** The first line of the body for a non-empty list, line 74. *)
Definition body_header : string :=
  "The following IPOs meet the criteria (Offer Amount > USD 200M):"
  ++ newline ++ newline.

(** The concatenation of a list of strings. *)
Fixpoint join (l : list string) : string :=
  match l with
  | [] => EmptyString
  | x :: l' => x ++ join l'
  end.

(** The last line that [main] prints, line 122. *)
Definition completion_line : string := "IPO Monitor completed successfully".

(** [m * 2^k] on positive numbers. *)
Definition shl (m : positive) (k : nat) : positive := Nat.iter k xO m.

(** The float of value [p * 2^j], for [p] below [2^53]: the bits of [p]
    shifted up to 53 digits. *)
Definition scaled (s : bool) (p : positive) (j : Z) : spec_float :=
  S754_finite s (shl p (Z.to_nat (53 - Z.pos (digits2_pos p))))
    (Z.pos (digits2_pos p) - 53 + j).

(** The float of a positive integer below [2^53]. *)
Definition float_of_pos (s : bool) (p : positive) : spec_float :=
  S754_finite s (shl p (Z.to_nat (53 - Z.pos (digits2_pos p))))
    (Z.pos (digits2_pos p) - 53).

(** A non-empty text of ASCII digits, and the number it writes. *)
Definition digit_text (s : string) : bool :=
  match list_ascii_of_string s with
  | [] => false
  | l => forallb is_digit l
  end.

Definition text_value (s : string) : Z := digits_to_Z (list_ascii_of_string s).

(** * Sample inputs *)

(** A decoded JSON object with the given members. *)
Definition record (members : list (string * pyval)) : pyval :=
  PDict (list_to_map members).

Definition listing (sym : string) (price_ shares_ : pyval) : pyval :=
  record [("symbol", PStr sym); ("name", PStr (sym ++ " Holdings"));
          ("date", PStr "2026-11-04"); ("exchange", PStr "NYSE");
          ("price", price_); ("numberOfShares", shares_)].

(** price 200, 1,000,000 shares: an offer of exactly 200,000,000. *)
Definition ipo_boundary : pyval := listing "BND" (PInt 200) (PInt 1000000).

(** price 199.99, 1,000,000 shares: an offer of 199,990,000. *)
Definition ipo_just_below : pyval :=
  listing "BLW" (PFloat (Float.of_decimal false 19999 (-2))) (PInt 1000000).

(** A price beyond the range of a double, which [float] reads as
    infinity, and no share count. *)
Definition ipo_infinite_price : pyval :=
  record [("symbol", PStr "INF"); ("price", PStr "1e999")].

(** [{"price": "-5", "numberOfShares": 1000000}]: a negative price given as
    text. *)
Definition ipo_negative_text : pyval := listing "NEG" (PStr "-5") (PInt 1000000).


(** An instance of Python's formatting for the sample runs: [str] on text,
    [None], booleans and ints. *)
Definition sample_str (v : pyval) : string :=
  match v with
  | PStr s => s
  | PNone => "None"
  | PBool b => if b then "True" else "False"
  | PInt n => str_int n
  | _ => EmptyString
  end.

Definition sample_format (x : number) (spec : string) : string :=
  match x with
  | NInt n => str_int n
  | NFloat _ => EmptyString
  end.

(** A world in which the HTTP server gives [reply] and the mail server
    [mail]. *)
Definition sample_world (reply : http_outcome) (mail : option string) : world :=
  {| FINNHUB_API_KEY := Some "demo";
     EMAIL_SENDER := Some "monitor@example.com";
     EMAIL_PASSWORD := Some "app-password";
     EMAIL_RECEIVER := Some "desk@example.com";
     now_at_start := "2026-11-04 09:00:00.000000";
     today_at_fetch := "2026-11-04";
     today_at_send := "2026-11-04";
     http_get := fun _ => reply;
     smtp := fun _ => mail |}.



(** A world without network: [requests.get] raises. *)
Definition offline_world : world := sample_world NoResponse None.

(** A world whose server answers 404. *)
Definition failing_world : world :=
  sample_world (Response 404 (Raise JSONDecodeError)) (Some "authentication failed").

(** A price range from 15 to 17, with 20,000,000 shares. *)
Definition ipo_range : pyval := listing "RNG" (PStr "15-17") (PInt 20000000).

(** Offers of 50, 250 and 300 million. *)
Definition ipo_50m : pyval := listing "SML" (PInt 50) (PInt 1000000).
Definition ipo_250m : pyval := listing "MID" (PInt 250) (PInt 1000000).
Definition ipo_300m : pyval := listing "BIG" (PInt 300) (PInt 1000000).

(** Price -200 with -1,000,000 shares: an offer of +200,000,000. *)
Definition ipo_negative_pair : pyval :=
  listing "NGP" (PInt (-200)) (PInt (-1000000)).

(** The dict emitted for the boundary record. *)
Definition boundary_dict : qualifying_ipo :=
  emit ipo_boundary
    (NFloat (Float.of_Z 200), 1000000, NFloat (Float.of_Z 200000000)).

(** A world whose server answers [{"ipoCalendar": null}]. *)
Definition null_calendar_world : world :=
  sample_world (Response 200 (Ok (record [("ipoCalendar", PNone)]))) None.

(** * Properties *)

(** ** The model on known values *)

(** [float("0.1")] is [0x1.999999999999ap-4]; digit grouping, white space
    and exponents are read as Python reads them. *)
Example float_of_string_values :
  float_of_string "0.1" = Ok (S754_finite false 7205759403792794 (-56)) /\
  float_of_string " 1_6.5e1 " = Ok (Float.of_Z 165) /\
  float_of_string ".5" = float_of_string "5E-1" /\
  float_of_string "-Infinity" = Ok (S754_infinity true) /\
  float_of_string "1e999" = Ok (S754_infinity false) /\
  float_of_string "nan" = Ok S754_nan.
Proof. vm_compute. repeat split. Qed.

Example float_of_string_rejects :
  float_of_string <$> ["1e"; "."; "1_.5"; "abc"; ""; "0x10"; "1 2"; "15-17"]
  = replicate 8 (Raise ValueError).
Proof. vm_compute. reflexivity. Qed.

Example int_of_string_values :
  int_of_string <$> ["15"; " 1_000 "; "-5"; "+7"; "007"]
  = [Ok 15; Ok 1000; Ok (-5); Ok 7; Ok 7].
Proof. vm_compute. reflexivity. Qed.

Example int_of_string_rejects :
  int_of_string <$> ["1.0"; "1e3"; "_1"; "1_"; ""; "1,000"]
  = replicate 6 (Raise ValueError).
Proof. vm_compute. reflexivity. Qed.

Example str_split_values :
  str_split "-" <$> ["15-17"; "-5"; "1-2-3"; ""; "abc"]
  = [["15"; "17"]; [""; "5"]; ["1"; "2"; "3"]; [""]; ["abc"]].
Proof. vm_compute. reflexivity. Qed.

(** The largest int that [float] converts, and the first one it refuses. *)
Example of_int_overflow :
  Float.of_int (Float.overflow_bound - 1)
  = Ok (S754_finite false (2 ^ 53 - 1) 971) /\
  Float.of_Z Float.overflow_bound = S754_infinity false /\
  Float.of_int Float.overflow_bound = Raise OverflowError.
Proof. vm_compute. repeat split. Qed.

(** [int] truncates toward zero; [199.99 * 1000000] is [199990000.0]. *)
Example float_arithmetic_values :
  Float.to_int (Float.of_decimal true 19999 (-2)) = Ok (-199) /\
  Float.mul (Float.of_decimal false 19999 (-2)) (Float.of_Z 1000000)
  = Float.of_Z 199990000 /\
  Float.compare_int (Float.of_decimal false 2000000000000001 (-7)) 200000000
  = Some Gt /\
  Float.compare_int (Float.of_decimal false 1999999999999999 (-7)) 200000000
  = Some Lt.
Proof. vm_compute. repeat split. Qed.

Ltac case_result r :=
  let E := fresh "E" in destruct r eqn:E; simpl; try reflexivity.

Lemma normalize_is_dict ipo t : normalize ipo = Ok t -> exists d, ipo = PDict d.
Proof. destruct ipo; try discriminate. eauto. Qed.

Lemma filter_step_emitted acc ipo :
  filter_step acc ipo = app acc <$> emitted ipo.
Proof.
  unfold filter_step, emitted, normalize.
  destruct ipo as [| | | | | |d]; try reflexivity.
  unfold normalized_price, normalized_shares. simpl.
  case_result (working_price (py_or (default PNone (d !! "price")) (PInt 0))).
  case_result (working_shares (py_or (default PNone (d !! "numberOfShares")) (PInt 0))).
  case_result (num_mul_int a a0).
  unfold meets_threshold; simpl.
  destruct (num_ge_int a1 OFFER_AMOUNT_THRESHOLD); simpl.
  - reflexivity.
  - now rewrite app_nil_r.
Qed.

Lemma for_each_collect ipos acc :
  for_each filter_step ipos acc = app acc <$> collect ipos.
Proof.
  revert acc. induction ipos as [|ipo rest IH]; intros acc; simpl.
  - now rewrite app_nil_r.
  - rewrite filter_step_emitted.
    destruct (emitted ipo) as [a|e]; simpl; [|reflexivity].
    rewrite IH. destruct (collect rest) as [b|e]; simpl; [|reflexivity].
    now rewrite app_assoc.
Qed.

Lemma filter_large_ipos_collect ipos : filter_large_ipos ipos = collect ipos.
Proof.
  unfold filter_large_ipos. rewrite for_each_collect.
  now destruct (collect ipos).
Qed.

Lemma collect_app xs ys :
  collect (xs ++ ys) = a ← collect xs; b ← collect ys; Ok (a ++ b)%list.
Proof.
  induction xs as [|x xs IH]; simpl.
  - now destruct (collect ys).
  - destruct (emitted x) as [a|e]; simpl; [|reflexivity].
    rewrite IH. destruct (collect xs) as [b|e]; simpl; [|reflexivity].
    destruct (collect ys) as [c|e]; simpl; [|reflexivity].
    now rewrite app_assoc.
Qed.

(** ** Signs and zeros of float products *)

Lemma binary_round_aux_sign s m e l :
  sign_is s (binary_round_aux Float.prec Float.emax s m e l).
Proof.
  unfold binary_round_aux.
  destruct (shr_fexp _ _ m e l) as [mrs' e'].
  destruct (shr_fexp _ _ _ e' loc_Exact) as [mrs'' e''].
  destruct (shr_m mrs''); [reflexivity| |exact I].
  now destruct (e'' <=? _).
Qed.

Lemma binary_round_sign s m e :
  sign_is s (binary_round Float.prec Float.emax s m e).
Proof.
  unfold binary_round. destruct (shl_align _ _ _) as [mz ez].
  apply binary_round_aux_sign.
Qed.

Lemma of_Z_sign n : n <> 0 -> sign_is (n <? 0) (Float.of_Z n).
Proof.
  destruct n as [|p|p]; intros Hn; [congruence| |]; apply binary_round_sign.
Qed.

Lemma of_Z_0 : Float.of_Z 0 = S754_zero false.
Proof. reflexivity. Qed.

Lemma mul_sign sx sy x y :
  sign_is sx x -> sign_is sy y -> sign_is (xorb sx sy) (Float.mul x y).
Proof.
  destruct x, y; simpl; intros; subst; try reflexivity.
  apply binary_round_aux_sign.
Qed.

Lemma mul_zero_l s y :
  Float.mul (S754_zero s) y = S754_nan \/ Float.is_zero (Float.mul (S754_zero s) y) = true.
Proof. destruct y; simpl; auto. Qed.

Lemma pow2_pos k : 0 < 2 ^ Zpos k.
Proof. apply Z.pow_pos_nonneg; lia. Qed.

(** A float that reaches a positive bound is neither a zero nor a NaN, and
    its sign bit is clear. *)
Lemma float_ge_positive x n s :
  0 < n -> sign_is s x -> num_ge_int (NFloat x) n = true ->
  s = false /\ Float.is_zero x = false /\ x <> S754_nan.
Proof.
  intros Hn Hs. unfold num_ge_int, Float.compare_int.
  destruct x as [s'|s'| |s' m e]; simpl in Hs; subst; try discriminate.
  - destruct (Z.compare_spec 0 n); try lia; discriminate.
  - destruct s; [discriminate|]. now repeat split.
  - destruct s; [|now repeat split].
    intros H. exfalso. unfold cond_Zopp in H.
    assert (Hm : - Z.pos m < 0) by lia.
    destruct e as [|k|k].
    + destruct (Z.compare_spec (- Z.pos m * 2 ^ 0) n); try discriminate; lia.
    + pose proof (pow2_pos k).
      destruct (Z.compare_spec (- Z.pos m * 2 ^ Z.pos k) n); try discriminate; nia.
    + pose proof (pow2_pos k).
      destruct (Z.compare_spec (- Z.pos m) (n * 2 ^ Z.pos k)); try discriminate; nia.
Qed.

(** The comparison with an int is exact: it compares the value
    [m * 2^e] of the float with the int, denominators cleared. *)
Lemma num_ge_int_finite s m e n :
  num_ge_int (NFloat (S754_finite s m e)) n = true <->
  match e with
  | Z.neg k => n * 2 ^ Z.pos k <= cond_Zopp s (Z.pos m)
  | _ => n <= cond_Zopp s (Z.pos m) * 2 ^ e
  end.
Proof.
  unfold num_ge_int, Float.compare_int.
  destruct e as [|k|k].
  - destruct (Z.compare_spec (cond_Zopp s (Z.pos m) * 2 ^ 0) n);
      split; intros; try discriminate; try reflexivity; lia.
  - destruct (Z.compare_spec (cond_Zopp s (Z.pos m) * 2 ^ Z.pos k) n);
      split; intros; try discriminate; try reflexivity; lia.
  - destruct (Z.compare_spec (cond_Zopp s (Z.pos m)) (n * 2 ^ Z.pos k));
      split; intros; try discriminate; try reflexivity; lia.
Qed.

Lemma num_ge_int_int z n : num_ge_int (NInt z) n = true <-> n <= z.
Proof. apply Z.leb_le. Qed.

Lemma threshold_pos : 0 < OFFER_AMOUNT_THRESHOLD.
Proof. reflexivity. Qed.

(** Multiplying by zero shares never reaches the threshold. *)
Lemma mul_zero_shares_below f :
  num_ge_int (NFloat (Float.mul f (Float.of_Z 0))) OFFER_AMOUNT_THRESHOLD = false.
Proof. rewrite of_Z_0. now destruct f. Qed.

(** ** Reading the output of the filter *)

Lemma collect_normalizes ipos out :
  collect ipos = Ok out ->
  forall ipo, ipo ∈ ipos -> exists t, normalize ipo = Ok t.
Proof.
  revert out. induction ipos as [|x rest IH]; intros out H ipo Hin.
  - inversion Hin.
  - simpl in H. unfold emitted in H.
    destruct (normalize x) as [t|e] eqn:Hx; [|discriminate]. simpl in H.
    destruct (collect rest) as [b|e] eqn:Hr; [|discriminate].
    apply elem_of_cons in Hin as [->|Hin]; eauto.
Qed.

Lemma collect_elem_of ipos out :
  collect ipos = Ok out ->
  forall q, q ∈ out <->
    exists ipo t, ipo ∈ ipos /\ normalize ipo = Ok t /\
                  meets_threshold t = true /\ q = emit ipo t.
Proof.
  revert out. induction ipos as [|x rest IH]; intros out H q.
  - injection H as <-. split.
    + intros Hq. inversion Hq.
    + intros (ipo & t & Hin & _). inversion Hin.
  - simpl in H. unfold emitted in H.
    destruct (normalize x) as [t|e] eqn:Hx; [|discriminate]. simpl in H.
    destruct (collect rest) as [b|e] eqn:Hr; [|discriminate].
    injection H as <-. rewrite elem_of_app, (IH b eq_refl q). split.
    + intros [Hq|(ipo & t' & Hin & Hn & Hm & ->)].
      * destruct (meets_threshold t) eqn:Hm; [|inversion Hq].
        apply list_elem_of_singleton in Hq as ->.
        exists x, t. split; [left|]; auto.
      * exists ipo, t'. split; [now right|]; auto.
    + intros (ipo & t' & Hin & Hn & Hm & ->).
      apply elem_of_cons in Hin as [->|Hin].
      * left. rewrite Hx in Hn. injection Hn as ->. rewrite Hm.
        apply list_elem_of_singleton. reflexivity.
      * right. eauto 6.
Qed.

(** ** Missing and falsy fields *)

Lemma working_price_falsy v :
  truthy v = false -> working_price (py_or v (PInt 0)) = Ok (NInt 0).
Proof. intros H. unfold py_or. now rewrite H. Qed.

Lemma working_shares_falsy v :
  truthy v = false -> working_shares (py_or v (PInt 0)) = Ok 0.
Proof. intros H. unfold py_or. now rewrite H. Qed.

Lemma working_price_truthy v :
  truthy v = true -> working_price (py_or v (PInt 0)) = working_price v.
Proof. intros H. unfold py_or. now rewrite H. Qed.

Lemma working_shares_truthy v :
  truthy v = true -> working_shares (py_or v (PInt 0)) = py_int v.
Proof. intros H. unfold py_or, working_shares. now rewrite !H. Qed.

Lemma falsy_price_dropped d n :
  truthy (field (PDict d) "price") = false ->
  normalized_shares (PDict d) = Ok n ->
  normalize (PDict d) = Ok (NInt 0, n, NInt 0) /\
  forall acc, filter_step acc (PDict d) = Ok acc.
Proof.
  intros Hf Hn.
  assert (Ht : normalize (PDict d) = Ok (NInt 0, n, NInt 0)).
  { unfold normalize, normalized_price. rewrite (working_price_falsy _ Hf).
    simpl. now rewrite Hn. }
  split; [exact Ht|]. intros acc.
  rewrite filter_step_emitted. unfold emitted. rewrite Ht. simpl.
  now rewrite app_nil_r.
Qed.

Lemma falsy_shares_dropped d p :
  truthy (field (PDict d) "numberOfShares") = false ->
  normalized_price (PDict d) = Ok p ->
  exists a, normalize (PDict d) = Ok (p, 0, a) /\
    (forall acc, filter_step acc (PDict d) = Ok acc) /\
    (num_is_zero a = true \/
     a = NFloat S754_nan /\ exists f, p = NFloat f /\ Float.is_finite f = false).
Proof.
  intros Hf Hp.
  assert (Hn : normalized_shares (PDict d) = Ok 0)
    by now apply working_shares_falsy.
  assert (Hdrop : forall a, normalize (PDict d) = Ok (p, 0, a) ->
            meets_threshold (p, 0, a) = false ->
            forall acc, filter_step acc (PDict d) = Ok acc).
  { intros a Ht Hm acc. rewrite filter_step_emitted. unfold emitted.
    rewrite Ht. simpl. rewrite Hm. simpl. now rewrite app_nil_r. }
  destruct p as [z|f].
  - exists (NInt (z * 0)).
    assert (Ht : normalize (PDict d) = Ok (NInt z, 0, NInt (z * 0))).
    { unfold normalize. rewrite Hp, Hn. reflexivity. }
    split; [exact Ht|]. split.
    + apply (Hdrop _ Ht). unfold meets_threshold. simpl. now rewrite Z.mul_0_r.
    + left. simpl. now rewrite Z.mul_0_r.
  - exists (NFloat (Float.mul f (Float.of_Z 0))).
    assert (Ht : normalize (PDict d)
                 = Ok (NFloat f, 0, NFloat (Float.mul f (Float.of_Z 0)))).
    { unfold normalize. rewrite Hp, Hn. reflexivity. }
    split; [exact Ht|]. split.
    + apply (Hdrop _ Ht). apply mul_zero_shares_below.
    + rewrite of_Z_0. destruct f; simpl; auto; right; eauto.
Qed.

(** The working price is a float, or the int 0 of a missing price. *)
Lemma working_price_int v z : working_price v = Ok (NInt z) -> z = 0.
Proof.
  unfold working_price. destruct (price_range v) as [s|].
  - destruct (str_split "-" s) as [|low [|high [|? ?]]]; try discriminate.
    destruct (float_of_string low); [|discriminate].
    destruct (float_of_string high); discriminate.
  - destruct (truthy v).
    + destruct (py_float v); discriminate.
    + now intros [= <-].
Qed.

Lemma normalize_parts ipo p n a :
  normalize ipo = Ok (p, n, a) <->
  (exists d, ipo = PDict d) /\ normalized_price ipo = Ok p /\
  normalized_shares ipo = Ok n /\ num_mul_int p n = Ok a.
Proof.
  split.
  - intros H. destruct (normalize_is_dict _ _ H) as [d ->].
    unfold normalize in H.
    destruct (normalized_price (PDict d)) as [p'|]; [|discriminate].
    destruct (normalized_shares (PDict d)) as [n'|]; [|discriminate].
    simpl in H. destruct (num_mul_int p' n') as [a'|] eqn:Ha; [|discriminate].
    injection H as -> -> ->. eauto.
  - intros ([d ->] & Hp & Hn & Ha). unfold normalize.
    rewrite Hp, Hn. simpl. now rewrite Ha.
Qed.

(** C1, counterexample.  The record [{"symbol": "INF", "price": "1e999"}]
    has no [numberOfShares], which normalizes to 0; its price is read as
    infinity, and its offer amount is [inf * 0], a NaN, not 0. *)
Lemma infinite_price_offer_amount_is_nan :
  truthy (field ipo_infinite_price "numberOfShares") = false /\
  normalize ipo_infinite_price
    = Ok (NFloat (S754_infinity false), 0, NFloat S754_nan) /\
  num_is_zero (NFloat S754_nan) = false.
Proof. vm_compute. auto. Qed.

(** C1 (amended).  On every list of raw records on which the filter returns:
    each record normalizes, and its dict appears in the output iff its
    normalized price times its normalized shares is >= 200,000,000; every
    dict of the output has an offer amount >= 200,000,000.  The comparison
    is exact and the bound inclusive: an offer of exactly 200,000,000
    qualifies (price 200 with 1,000,000 shares is kept, price 199.99 is
    not).  A record whose [price] is missing or falsy has price 0, offer
    amount 0 and is dropped; a record whose [numberOfShares] is missing or
    falsy has 0 shares and is dropped, its offer amount being a zero, or a
    NaN when the price is infinite or a NaN. *)
Theorem filter_large_ipos_threshold :
  (forall ipos out, filter_large_ipos ipos = Ok out ->
     (forall ipo, ipo ∈ ipos -> exists p n a,
        normalized_price ipo = Ok p /\ normalized_shares ipo = Ok n /\
        num_mul_int p n = Ok a /\
        (emit ipo (p, n, a) ∈ out <->
         num_ge_int a OFFER_AMOUNT_THRESHOLD = true)) /\
     (forall q, q ∈ out ->
        num_ge_int (offer_amount q) OFFER_AMOUNT_THRESHOLD = true /\
        exists ipo t, ipo ∈ ipos /\ normalize ipo = Ok t /\ q = emit ipo t))
  /\ ((forall z, num_ge_int (NInt z) OFFER_AMOUNT_THRESHOLD = true <->
                  200000000 <= z) /\
      (forall s m e,
         num_ge_int (NFloat (S754_finite s m e)) OFFER_AMOUNT_THRESHOLD = true <->
         match e with
         | Z.neg k => 200000000 * 2 ^ Z.pos k <= cond_Zopp s (Z.pos m)
         | _ => 200000000 <= cond_Zopp s (Z.pos m) * 2 ^ e
         end) /\
      num_ge_int (NFloat (Float.of_Z 200000000)) OFFER_AMOUNT_THRESHOLD = true /\
      (exists q, filter_large_ipos [ipo_boundary] = Ok [q] /\
                 offer_amount q = NFloat (Float.of_Z 200000000)) /\
      filter_large_ipos [ipo_just_below] = Ok [])
  /\ (forall d, truthy (field (PDict d) "price") = false ->
        normalized_price (PDict d) = Ok (NInt 0) /\
        forall n, normalized_shares (PDict d) = Ok n ->
          normalize (PDict d) = Ok (NInt 0, n, NInt 0) /\
          forall acc, filter_step acc (PDict d) = Ok acc)
  /\ (forall d, truthy (field (PDict d) "numberOfShares") = false ->
        normalized_shares (PDict d) = Ok 0 /\
        forall p, normalized_price (PDict d) = Ok p ->
          exists a, normalize (PDict d) = Ok (p, 0, a) /\
            (forall acc, filter_step acc (PDict d) = Ok acc) /\
            (num_is_zero a = true \/
             a = NFloat S754_nan /\
             exists f, p = NFloat f /\ Float.is_finite f = false)).
Proof.
  split; [|split; [|split]].
  - intros ipos out H. rewrite filter_large_ipos_collect in H. split.
    + intros ipo Hin.
      destruct (collect_normalizes _ _ H ipo Hin) as [[[p n] a] Ht].
      exists p, n, a.
      pose proof (proj1 (normalize_parts _ _ _ _) Ht) as (_ & Hp & Hn & Ha).
      repeat (split; [assumption|]).
      rewrite (collect_elem_of _ _ H). split.
      * intros (ipo' & t' & _ & _ & Hm & Hq).
        apply (f_equal offer_amount) in Hq. simpl in Hq. now rewrite Hq.
      * intros Hge. exists ipo, (p, n, a). auto.
    + intros q Hq.
      apply (collect_elem_of _ _ H) in Hq as (ipo & t & Hin & Ht & Hm & ->).
      split; [exact Hm|eauto].
  - split; [intros z; apply num_ge_int_int|].
    split; [intros s m e; apply num_ge_int_finite|].
    split; [reflexivity|]. split.
    + eexists. split; vm_compute; reflexivity.
    + vm_compute. reflexivity.
  - intros d Hf. split; [now apply working_price_falsy|].
    intros n Hn. now apply falsy_price_dropped.
  - intros d Hf. split; [now apply working_shares_falsy|].
    intros p Hp. now apply falsy_shares_dropped.
Qed.

(** C1, an instance: the list [just below; boundary] gives the boundary
    record alone, whose offer amount reaches the threshold. *)
Lemma filter_large_ipos_threshold_witness :
  let out := [emit ipo_boundary
                (NFloat (Float.of_Z 200), 1000000, NFloat (Float.of_Z 200000000))] in
  filter_large_ipos [ipo_just_below; ipo_boundary] = Ok out /\
  forall q, q ∈ out ->
    num_ge_int (offer_amount q) OFFER_AMOUNT_THRESHOLD = true /\
    exists ipo t, ipo ∈ [ipo_just_below; ipo_boundary] /\
                  normalize ipo = Ok t /\ q = emit ipo t.
Proof.
  intros out.
  assert (H : filter_large_ipos [ipo_just_below; ipo_boundary] = Ok out)
    by (vm_compute; reflexivity).
  split; [exact H|].
  exact (proj2 (proj1 filter_large_ipos_threshold _ _ H)).
Defined.

(** ** Fields that never make the filter raise *)

Lemma digits2_pos_size m : digits2_pos m = Pos.size m.
Proof. induction m; simpl; congruence. Qed.



Lemma of_int_bounded n :
  Z.abs n < Float.overflow_bound -> Float.of_int n = Ok (Float.of_Z n).
Proof.
  intros H. unfold Float.of_int.
  now destruct (Z.ltb_spec (Z.abs n) Float.overflow_bound); [|lia].
Qed.









(** ** Runs of the whole program *)

Section Runs.

Variable py_str : pyval -> string.
Variable py_format : number -> string -> string.

Lemma send_email_prints w qs :
  send_email py_str py_format w qs
  = ([mail_line w (message_of py_str py_format w qs)], Ok tt).
Proof.
  unfold send_email, mail_line, message_of.
  now destruct (smtp w _).
Qed.

Lemma main_after_fetch w :
  main py_str py_format w =
  _ ← print ("Running IPO Monitor at " ++ now_at_start w);
  _ ← print banner;
  ipos ← get_todays_ipos w;
  after_fetch py_str py_format w ipos.
Proof. reflexivity. Qed.

Lemma after_fetch_list w items out :
  filter_large_ipos items = Ok out ->
  after_fetch py_str py_format w (PList items) =
  (["Found " ++ str_int (Z.of_nat (length items)) ++ " IPO(s) scheduled for today";
    "Found " ++ str_int (Z.of_nat (length out)) ++ " IPO(s) above $200M threshold";
    mail_line w (message_of py_str py_format w out);
    banner;
    "IPO Monitor completed successfully"], Ok tt).
Proof.
  intros H. unfold after_fetch.
  cbn [py_len py_iter lift print mbind io_bind app].
  rewrite H.
  cbn [py_len py_iter lift print mbind io_bind app].
  rewrite send_email_prints. reflexivity.
Qed.


Lemma get_todays_ipos_ok w d :
  http_get w (fetch_url w) = Response 200 (Ok (PDict d)) ->
  get_todays_ipos w = ([], Ok (default (PList []) (d !! "ipoCalendar"))).
Proof. intros H. unfold get_todays_ipos. now rewrite H. Qed.

Lemma get_todays_ipos_failed w st j :
  http_get w (fetch_url w) = Response st j -> st <> 200 ->
  get_todays_ipos w
  = (["Error fetching IPO data: " ++ str_int st], Ok (PList [])).
Proof.
  intros H Hst. unfold get_todays_ipos. rewrite H.
  now destruct (Z.eqb_spec st 200).
Qed.

Lemma get_todays_ipos_offline w :
  http_get w (fetch_url w) = NoResponse ->
  get_todays_ipos w = ([], Raise RequestException).
Proof. intros H. unfold get_todays_ipos. now rewrite H. Qed.

Lemma main_run w log v log' r :
  get_todays_ipos w = (log, Ok v) ->
  after_fetch py_str py_format w v = (log', r) ->
  main py_str py_format w
  = ((start_line w :: banner :: log) ++ log', r)%list.
Proof.
  intros Hf Ha. rewrite main_after_fetch, Hf.
  cbn [print mbind io_bind]. rewrite Ha. reflexivity.
Qed.

Lemma main_fetch_raises w log e :
  get_todays_ipos w = (log, Raise e) ->
  main py_str py_format w = (start_line w :: banner :: log, Raise e).
Proof. intros Hf. rewrite main_after_fetch, Hf. reflexivity. Qed.

End Runs.


(** A request that raises is not covered by the status test of the
    fetcher: the exception leaves [main]. *)
Lemma main_request_raises (py_str : pyval -> string)
    (py_format : number -> string -> string) (w : world) :
  http_get w (fetch_url w) = NoResponse ->
  main py_str py_format w = ([start_line w; banner], Raise RequestException).
Proof.
  intros H. apply main_fetch_raises. now apply get_todays_ipos_offline.
Qed.

(** An instance: a world without network. *)
Lemma main_offline_exits_1 :
  main sample_str sample_format offline_world
  = (["Running IPO Monitor at 2026-11-04 09:00:00.000000"; banner],
     Raise RequestException) /\
  exit_status (main sample_str sample_format offline_world) = 1.
Proof. vm_compute. auto. Qed.



(** ** Price ranges *)

Lemma str_contains_nonempty c s : str_contains c s = true -> s <> EmptyString.
Proof. now destruct s. Qed.

Lemma truthy_str s : s <> EmptyString -> truthy (PStr s) = true.
Proof. intros H. simpl. now destruct (decide (s = EmptyString)). Qed.



(** ** Order of the output *)

Lemma collect_omap ipos out : collect ipos = Ok out -> out = omap kept ipos.
Proof.
  revert out. induction ipos as [|x rest IH]; intros out H.
  - now injection H as <-.
  - simpl in H. unfold emitted in H.
    change (omap kept (x :: rest))
      with (match kept x with
            | Some q => q :: omap kept rest
            | None => omap kept rest
            end).
    unfold kept at 1.
    destruct (normalize x) as [t|e]; [|discriminate]. simpl in H.
    destruct (collect rest) as [b|e]; [|discriminate].
    injection H as <-. rewrite <- (IH b eq_refl).
    now destruct (meets_threshold t).
Qed.

(** [omap] keeps the order of the elements it keeps: the positions of the
    results map increasingly to positions of their sources. *)
Lemma omap_increasing {A B} (g : A -> option B) (l : list A) :
  exists pos : nat -> nat,
    (forall i j, (i < j)%nat -> (pos i < pos j)%nat) /\
    forall i b, omap g l !! i = Some b ->
      exists a, l !! pos i = Some a /\ g a = Some b.
Proof.
  induction l as [|x l (pos & Hmono & Hpos)].
  - exists (fun i => i). split; [auto|]. intros i b H. inversion H.
  - change (omap g (x :: l))
      with (match g x with
            | Some b => b :: omap g l
            | None => omap g l
            end).
    destruct (g x) as [b0|] eqn:Hx.
    + exists (fun i => match i with O => O | S i' => S (pos i') end). split.
      * intros [|i] [|j] Hij; try lia.
        assert (Hlt : (pos i < pos j)%nat) by (apply Hmono; lia). lia.
      * intros [|i] b H; simpl in H.
        -- injection H as <-. exists x. auto.
        -- apply Hpos in H as (a & Ha & Hg). exists a. auto.
    + exists (fun i => S (pos i)). split.
      * intros i j Hij. apply Hmono in Hij. lia.
      * intros i b H. apply Hpos in H as (a & Ha & Hg). exists a. auto.
Qed.

(** C5.  On every list on which the filter returns, the output is the list
    of the dicts of the qualifying records, in the order of the input: it is
    [omap kept] of the input, and the positions of the output map
    increasingly to the positions of the records they come from.  Offers of
    50M, 250M and 300M give exactly the latter two, in that order. *)
Theorem filter_large_ipos_preserves_order :
  (forall ipos out, filter_large_ipos ipos = Ok out ->
     out = omap kept ipos /\
     exists pos : nat -> nat,
       (forall i j, (i < j)%nat -> (pos i < pos j)%nat) /\
       forall i q, out !! i = Some q ->
         exists ipo, ipos !! pos i = Some ipo /\ kept ipo = Some q)
  /\ (exists q250 q300,
        filter_large_ipos [ipo_50m; ipo_250m; ipo_300m] = Ok [q250; q300] /\
        kept ipo_50m = None /\
        kept ipo_250m = Some q250 /\ kept ipo_300m = Some q300 /\
        symbol q250 = PStr "MID" /\ symbol q300 = PStr "BIG").
Proof.
  split.
  - intros ipos out H. rewrite filter_large_ipos_collect in H.
    apply collect_omap in H as ->. split; [reflexivity|].
    apply omap_increasing.
  - do 2 eexists. repeat split; vm_compute; reflexivity.
Qed.

(** C5, an instance: the three offers of 50M, 250M and 300M. *)
Lemma filter_large_ipos_preserves_order_witness :
  let ipos := [ipo_50m; ipo_250m; ipo_300m] in
  let out := omap kept [ipo_250m; ipo_300m] in
  filter_large_ipos ipos = Ok out /\ out = omap kept ipos.
Proof.
  intros ipos out.
  assert (H : filter_large_ipos ipos = Ok out) by (vm_compute; reflexivity).
  split; [exact H|].
  exact (proj1 (proj1 filter_large_ipos_preserves_order ipos out H)).
Defined.

(** ** The sign of the share count *)

Lemma sign_is_sign_bit x : sign_is (sign_bit x) x.
Proof. now destruct x. Qed.

Lemma num_mul_int_float f n a :
  num_mul_int (NFloat f) n = Ok a -> a = NFloat (Float.mul f (Float.of_Z n)).
Proof.
  simpl. unfold Float.of_int.
  destruct (Z.abs n <? Float.overflow_bound); [|discriminate].
  now intros [= <-].
Qed.

(** A record that passes the threshold has a float price and a share count
    of the sign of the price, neither of them zero. *)
Lemma qualifying_signs p n a :
  (forall z, p = NInt z -> z = 0) ->
  num_mul_int p n = Ok a ->
  num_ge_int a OFFER_AMOUNT_THRESHOLD = true ->
  exists f, p = NFloat f /\ f <> S754_nan /\ Float.is_zero f = false /\
            n <> 0 /\ (n <? 0) = sign_bit f.
Proof.
  intros Hint Hmul Hge. destruct p as [z|f].
  - rewrite (Hint z eq_refl) in Hmul. injection Hmul as <-. discriminate.
  - apply num_mul_int_float in Hmul as ->. exists f. split; [reflexivity|].
    assert (Hn : n <> 0).
    { intros ->. now rewrite mul_zero_shares_below in Hge. }
    pose proof (mul_sign _ _ f _ (sign_is_sign_bit f) (of_Z_sign n Hn)) as Hs.
    destruct (float_ge_positive _ _ _ threshold_pos Hs Hge) as (Hx & Hz & Hnan).
    repeat split; try assumption.
    + intros ->. now apply Hnan.
    + destruct f; try reflexivity. exfalso.
      destruct (mul_zero_l s (Float.of_Z n)) as [H|H]; [now apply Hnan|congruence].
    + destruct (sign_bit f), (n <? 0); simpl in Hx; congruence.
Qed.

(** C6, counterexample.  Price -200 with -1,000,000 shares gives an offer
    of +200,000,000: the record is output, with a negative share count. *)
Lemma negative_shares_in_output :
  exists q, filter_large_ipos [ipo_negative_pair] = Ok [q] /\
            shares q = -1000000 /\ shares q < 0.
Proof. eexists. split; [vm_compute; reflexivity|]. split; reflexivity. Qed.

(** C6 (amended).  For every record in the filter's output, [shares] is an
    integer, not zero, with the sign of the price, which is a float, not
    zero and not a NaN: the count is positive when the price is positive
    and negative when the price is negative. *)
Theorem output_shares_sign (ipos : list pyval) (out : list qualifying_ipo)
    (q : qualifying_ipo) :
  filter_large_ipos ipos = Ok out -> q ∈ out ->
  exists f, price q = NFloat f /\ f <> S754_nan /\ Float.is_zero f = false /\
    shares q <> 0 /\
    (sign_bit f = false -> 0 < shares q) /\
    (sign_bit f = true -> shares q < 0).
Proof.
  intros H Hq. rewrite filter_large_ipos_collect in H.
  apply (collect_elem_of _ _ H) in Hq as (ipo & [[p n] a] & _ & Ht & Hm & ->).
  apply normalize_parts in Ht as (_ & Hp & _ & Ha).
  destruct (qualifying_signs p n a) as (f & -> & Hnan & Hz & Hn & Hs); auto.
  { intros z ->. now apply working_price_int in Hp. }
  exists f. simpl. repeat split; try assumption.
  - intros Hf. rewrite Hf in Hs. apply Z.ltb_ge in Hs. lia.
  - intros Hf. rewrite Hf in Hs. now apply Z.ltb_lt in Hs.
Qed.

(** C6, an instance: the boundary record has a positive price and a
    positive share count. *)
Lemma output_shares_sign_witness :
  exists f, price boundary_dict = NFloat f /\ f <> S754_nan /\
    Float.is_zero f = false /\ shares boundary_dict <> 0 /\
    (sign_bit f = false -> 0 < shares boundary_dict) /\
    (sign_bit f = true -> shares boundary_dict < 0).
Proof.
  refine (output_shares_sign [ipo_boundary] [boundary_dict] boundary_dict _ _).
  - vm_compute. reflexivity.
  - apply list_elem_of_singleton. reflexivity.
Defined.

(** ** The fetcher *)

(** C7.  When the request is answered with status 200 and an object, the
    fetcher returns, without printing, the value under [ipoCalendar], and the
    empty list when the key is missing.  On any other status it prints
    the status and returns the empty list without raising: the value
    returned is the one returned for an answer with status 200 and an empty
    or missing calendar. *)
Theorem get_todays_ipos_reply (w : world) (st : Z) (j : result pyval) :
  http_get w (fetch_url w) = Response st j ->
  (st = 200 -> forall d, j = Ok (PDict d) ->
     get_todays_ipos w = ([], Ok (default (PList []) (d !! "ipoCalendar"))) /\
     (forall v, d !! "ipoCalendar" = Some v -> get_todays_ipos w = ([], Ok v)) /\
     (d !! "ipoCalendar" = None -> get_todays_ipos w = ([], Ok (PList []))))
  /\ (st <> 200 ->
      get_todays_ipos w
      = (["Error fetching IPO data: " ++ str_int st], Ok (PList [])) /\
      forall w' d,
        http_get w' (fetch_url w') = Response 200 (Ok (PDict d)) ->
        d !! "ipoCalendar" = None \/ d !! "ipoCalendar" = Some (PList []) ->
        (get_todays_ipos w').2 = (get_todays_ipos w).2).
Proof.
  intros H. split.
  - intros -> d ->. pose proof (get_todays_ipos_ok w d H) as Hok.
    split; [exact Hok|]. split.
    + intros v Hv. now rewrite Hok, Hv.
    + intros Hv. now rewrite Hok, Hv.
  - intros Hst. pose proof (get_todays_ipos_failed w st j H Hst) as Hf.
    split; [exact Hf|]. intros w' d H' Hcal.
    rewrite Hf, (get_todays_ipos_ok w' d H').
    now destruct Hcal as [-> | ->].
Qed.

(** C7, an instance: the server answers 404. *)
Lemma get_todays_ipos_reply_witness :
  get_todays_ipos failing_world
  = (["Error fetching IPO data: 404"], Ok (PList [])).
Proof.
  refine (proj1 (proj2 (get_todays_ipos_reply failing_world 404
                          (Raise JSONDecodeError) eq_refl) _)).
  vm_compute. discriminate.
Defined.

(** ** The notifier *)

(** C8.  The subject of the message is a function of the qualifying list
    and of the date: for the empty list it is "IPO Monitor - No Large IPOs
    Today (<date>)", with a fixed body; for a non-empty list it is
    "IPO Alert - <count> Large IPO(s) Today (<date>)", where <count> is the
    length of the list in decimal.  That subject is the one of the message
    handed to the mail server; an empty input list gives the first form. *)
Theorem email_subject_cases (py_str : pyval -> string)
    (py_format : number -> string -> string) :
  (forall today,
     email_subject today [] = "IPO Monitor - No Large IPOs Today (" ++ today ++ ")")
  /\ email_body py_str py_format []
     = "No IPOs with offer amount above USD 200 million are scheduled for today."
  /\ (forall today qs, qs <> [] ->
        email_subject today qs
        = "IPO Alert - " ++ str_int (Z.of_nat (length qs))
          ++ " Large IPO(s) Today (" ++ today ++ ")")
  /\ (forall w qs,
        send_email py_str py_format w qs
        = ([mail_line w (message_of py_str py_format w qs)], Ok tt) /\
        msg_subject (message_of py_str py_format w qs)
        = email_subject (today_at_send w) qs)
  /\ (filter_large_ipos [] = Ok [] /\
      email_subject "2026-11-04" []
      = "IPO Monitor - No Large IPOs Today (2026-11-04)" /\
      email_subject "2026-11-04" [boundary_dict; boundary_dict]
      = "IPO Alert - 2 Large IPO(s) Today (2026-11-04)").
Proof.
  split; [reflexivity|]. split; [reflexivity|]. split.
  - intros today [|q qs] Hne; [congruence|reflexivity].
  - split.
    + intros w qs. split; [apply send_email_prints|reflexivity].
    + repeat split; vm_compute; reflexivity.
Qed.

(** C8, an instance: one qualifying record. *)
Lemma email_subject_cases_witness :
  email_subject "2026-11-04" [boundary_dict]
  = "IPO Alert - 1 Large IPO(s) Today (2026-11-04)".
Proof.
  refine (proj1 (proj2 (proj2 (email_subject_cases sample_str sample_format)))
            "2026-11-04" [boundary_dict] _).
  discriminate.
Defined.

(** ** Concatenation *)

(** C9.  The filter distributes over concatenation: filtering [xs ++ ys] is
    filtering [xs], then [ys], and appending the outputs; when both return,
    the output for [xs ++ ys] is the output for [xs] followed by the output
    for [ys], and otherwise the first exception of the two is raised.  The
    empty list gives the empty list. *)
Theorem filter_large_ipos_app (xs ys : list pyval) :
  filter_large_ipos (xs ++ ys)
  = (a ← filter_large_ipos xs; b ← filter_large_ipos ys; Ok (a ++ b)%list)
  /\ (forall a b, filter_large_ipos xs = Ok a -> filter_large_ipos ys = Ok b ->
        filter_large_ipos (xs ++ ys) = Ok (a ++ b)%list)
  /\ filter_large_ipos [] = Ok [].
Proof.
  assert (H : filter_large_ipos (xs ++ ys)
              = (a ← filter_large_ipos xs; b ← filter_large_ipos ys;
                 Ok (a ++ b)%list)).
  { rewrite !filter_large_ipos_collect. apply collect_app. }
  split; [exact H|]. split; [|reflexivity].
  intros a b Ha Hb. now rewrite H, Ha, Hb.
Qed.

(** C9, an instance: [50M; 250M] followed by [300M]. *)
Lemma filter_large_ipos_app_witness :
  filter_large_ipos ([ipo_50m; ipo_250m] ++ [ipo_300m])
  = Ok (omap kept [ipo_250m] ++ omap kept [ipo_300m])%list.
Proof.
  apply (proj1 (proj2 (filter_large_ipos_app [ipo_50m; ipo_250m] [ipo_300m])));
    vm_compute; reflexivity.
Defined.

(** ** Display fields *)

(** C10.  For every raw record that qualifies, the display fields of the
    dict emitted are the values of the record, unchanged, [None] standing
    for an absent key: [symbol] is the record's [symbol], [company] its
    [name], [date] its [date] and [exchange] its [exchange]. *)
Theorem emitted_display_fields :
  (forall d acc out, filter_step acc (PDict d) = Ok out ->
     out = acc \/
     exists q, out = (acc ++ [q])%list /\
       symbol q = default PNone (d !! "symbol") /\
       company q = default PNone (d !! "name") /\
       date q = default PNone (d !! "date") /\
       exchange q = default PNone (d !! "exchange"))
  /\ (forall ipos out q, filter_large_ipos ipos = Ok out -> q ∈ out ->
        exists d, PDict d ∈ ipos /\ kept (PDict d) = Some q /\
          symbol q = default PNone (d !! "symbol") /\
          company q = default PNone (d !! "name") /\
          date q = default PNone (d !! "date") /\
          exchange q = default PNone (d !! "exchange")).
Proof.
  split.
  - intros d acc out. rewrite filter_step_emitted. unfold emitted.
    destruct (normalize (PDict d)) as [t|e]; [|discriminate]. simpl.
    destruct (meets_threshold t); intros [= <-].
    + right. exists (emit (PDict d) t). repeat split.
    + left. now rewrite app_nil_r.
  - intros ipos out q H Hq. rewrite filter_large_ipos_collect in H.
    apply (collect_elem_of _ _ H) in Hq as (ipo & t & Hin & Ht & Hm & ->).
    destruct (normalize_is_dict _ _ Ht) as [d ->].
    exists d. split; [exact Hin|]. split; [|repeat split].
    unfold kept. now rewrite Ht, Hm.
Qed.

(** C10, an instance: the boundary record. *)
Lemma emitted_display_fields_witness :
  exists d, PDict d ∈ [ipo_boundary] /\ kept (PDict d) = Some boundary_dict /\
    symbol boundary_dict = default PNone (d !! "symbol") /\
    company boundary_dict = default PNone (d !! "name") /\
    date boundary_dict = default PNone (d !! "date") /\
    exchange boundary_dict = default PNone (d !! "exchange").
Proof.
  apply (proj2 emitted_display_fields [ipo_boundary] [boundary_dict] boundary_dict).
  - vm_compute. reflexivity.
  - apply list_elem_of_singleton. reflexivity.
Defined.

(** * Further properties of the code *)

(** ** The size of the output *)

Lemma collect_length ipos out :
  collect ipos = Ok out -> (length out <= length ipos)%nat.
Proof.
  revert out. induction ipos as [|x rest IH]; intros out H.
  - injection H as <-. reflexivity.
  - simpl in H. unfold emitted in H.
    destruct (normalize x) as [t|e]; [|discriminate]. simpl in H.
    destruct (collect rest) as [b|e]; [|discriminate].
    injection H as <-. specialize (IH b eq_refl).
    destruct (meets_threshold t); simpl; lia.
Qed.

(** X1.  The filter never returns more dicts than it was given records, and
    as many only when every record qualifies. *)
Theorem filter_large_ipos_length (ipos : list pyval) (out : list qualifying_ipo) :
  filter_large_ipos ipos = Ok out ->
  (length out <= length ipos)%nat /\
  (length out = length ipos <-> Forall (fun ipo => is_Some (kept ipo)) ipos).
Proof.
  rewrite filter_large_ipos_collect. intros H.
  split; [now apply collect_length|].
  revert out H. induction ipos as [|x rest IH]; intros out H.
  - injection H as <-. split; [constructor|reflexivity].
  - simpl in H. unfold emitted in H.
    destruct (normalize x) as [t|e] eqn:Hx; [|discriminate]. simpl in H.
    destruct (collect rest) as [b|e] eqn:Hr; [|discriminate].
    injection H as <-. pose proof (collect_length _ _ Hr) as Hle.
    specialize (IH b eq_refl).
    rewrite Forall_cons.
    assert (Hk : kept x = if meets_threshold t then Some (emit x t) else None)
      by (unfold kept; now rewrite Hx).
    rewrite Hk. destruct (meets_threshold t); simpl.
    + rewrite <- IH. split; [intros; split; [eauto|lia]|intros [_ ?]; lia].
    + split; [lia|]. intros [[? [=]] _].
Qed.

(** X1, an instance: three records, two of which qualify. *)
Lemma filter_large_ipos_length_witness :
  (length (omap kept [ipo_250m; ipo_300m])
   <= length [ipo_50m; ipo_250m; ipo_300m])%nat.
Proof.
  refine (proj1 (filter_large_ipos_length [ipo_50m; ipo_250m; ipo_300m]
                   (omap kept [ipo_250m; ipo_300m]) _)).
  vm_compute. reflexivity.
Defined.

(** ** When the filter raises *)

Lemma collect_raises ipos e :
  collect ipos = Raise e <->
  exists xs ipo ys out,
    ipos = (xs ++ ipo :: ys)%list /\ collect xs = Ok out /\ emitted ipo = Raise e.
Proof.
  split.
  - induction ipos as [|x rest IH]; [discriminate|].
    simpl. destruct (emitted x) as [a|e'] eqn:Hx; simpl.
    + destruct (collect rest) as [b|e'] eqn:Hr; [discriminate|].
      intros [= ->]. destruct (IH eq_refl) as (xs & ipo & ys & out & -> & Hxs & Hi).
      exists (x :: xs), ipo, ys, (a ++ out)%list. split; [reflexivity|].
      split; [|exact Hi]. simpl. now rewrite Hx, Hxs.
    + intros [= ->]. exists [], x, rest, []. auto.
  - intros (xs & ipo & ys & out & -> & Hxs & Hi).
    rewrite collect_app, Hxs. simpl. now rewrite Hi.
Qed.

Lemma filter_step_raises acc ipo e :
  filter_step acc ipo = Raise e <-> emitted ipo = Raise e.
Proof.
  rewrite filter_step_emitted. destruct (emitted ipo); simpl; split; congruence.
Qed.

(** X2.  The filter is all or nothing: it raises [e] exactly when the list
    splits into records on which it returns, followed by a record on which
    the loop turn raises [e]; the dicts collected before that record are
    lost, and the records after it are not looked at. *)
Theorem filter_large_ipos_raises (ipos : list pyval) (e : exn) :
  filter_large_ipos ipos = Raise e <->
  exists xs ipo ys out,
    ipos = (xs ++ ipo :: ys)%list /\
    filter_large_ipos xs = Ok out /\
    filter_step out ipo = Raise e.
Proof.
  rewrite filter_large_ipos_collect, collect_raises.
  split; intros (xs & ipo & ys & out & -> & Hxs & Hi);
    exists xs, ipo, ys, out; (split; [reflexivity|]).
  - now rewrite filter_large_ipos_collect, filter_step_raises.
  - now rewrite <- filter_large_ipos_collect, <- (filter_step_raises out).
Qed.

(** X2, an instance: a malformed record between two qualifying ones. *)
Lemma filter_large_ipos_raises_witness :
  filter_large_ipos [ipo_250m; ipo_negative_text; ipo_300m] = Raise ValueError.
Proof.
  apply (proj2 (filter_large_ipos_raises _ ValueError)).
  exists [ipo_250m], ipo_negative_text, [ipo_300m], (omap kept [ipo_250m]).
  repeat split; vm_compute; reflexivity.
Defined.

(** ** The numbers of an emitted dict *)

(** X3.  In every dict of the output the three numbers agree: [price] is a
    float, [offer_amount] is the float product of [price] and [shares], it is
    not a NaN and its sign bit is clear, and [shares] is in the range of a
    double. *)
Theorem output_fields_consistent (ipos : list pyval) (out : list qualifying_ipo)
    (q : qualifying_ipo) :
  filter_large_ipos ipos = Ok out -> q ∈ out ->
  exists f,
    price q = NFloat f /\
    offer_amount q = NFloat (Float.mul f (Float.of_Z (shares q))) /\
    Z.abs (shares q) < Float.overflow_bound /\
    Float.mul f (Float.of_Z (shares q)) <> S754_nan /\
    sign_bit (Float.mul f (Float.of_Z (shares q))) = false.
Proof.
  intros H Hq. rewrite filter_large_ipos_collect in H.
  apply (collect_elem_of _ _ H) in Hq as (ipo & [[p n] a] & _ & Ht & Hm & ->).
  apply normalize_parts in Ht as (_ & Hp & _ & Ha).
  destruct p as [z|f].
  - apply working_price_int in Hp as ->. injection Ha as <-. discriminate.
  - exists f. simpl. split; [reflexivity|].
    pose proof (num_mul_int_float _ _ _ Ha) as ->.
    split; [reflexivity|]. split.
    + simpl in Ha. unfold Float.of_int in Ha.
      destruct (Z.ltb_spec (Z.abs n) Float.overflow_bound); [assumption|discriminate].
    + unfold meets_threshold in Hm. simpl in Hm.
      destruct (float_ge_positive _ _ _ threshold_pos
                  (sign_is_sign_bit (Float.mul f (Float.of_Z n))) Hm)
        as (Hs & _ & Hnan).
      split; assumption.
Qed.

(** X3, an instance: the boundary record. *)
Lemma output_fields_consistent_witness :
  exists f,
    price boundary_dict = NFloat f /\
    offer_amount boundary_dict
    = NFloat (Float.mul f (Float.of_Z (shares boundary_dict))) /\
    Z.abs (shares boundary_dict) < Float.overflow_bound /\
    Float.mul f (Float.of_Z (shares boundary_dict)) <> S754_nan /\
    sign_bit (Float.mul f (Float.of_Z (shares boundary_dict))) = false.
Proof.
  refine (output_fields_consistent [ipo_boundary] [boundary_dict] boundary_dict _ _).
  - vm_compute. reflexivity.
  - apply list_elem_of_singleton. reflexivity.
Defined.

(** ** The keys that the filter reads *)

Lemma filter_step_agree (d1 d2 : gmap string pyval) (acc : list qualifying_ipo) :
  (forall k, k ∈ read_keys -> d1 !! k = d2 !! k) ->
  filter_step acc (PDict d1) = filter_step acc (PDict d2).
Proof.
  intros H. unfold filter_step, py_get.
  assert (Hk : forall k, k ∈ read_keys ->
            default PNone (d1 !! k) = default PNone (d2 !! k)).
  { intros k Hin. now rewrite (H k Hin). }
  cbn [mbind result_bind].
  rewrite (Hk "price"), (Hk "numberOfShares"), (Hk "symbol"), (Hk "name"),
    (Hk "date"), (Hk "exchange"); try reflexivity;
    unfold read_keys; set_solver.
Qed.

(** X4.  A loop turn reads six keys of the record and nothing else: two
    records that agree on [price], [numberOfShares], [symbol], [name],
    [date] and [exchange] give the same result, so adding, changing or
    removing any other key changes nothing. *)
Theorem filter_step_reads_six_keys :
  (forall d1 d2 acc,
     (forall k, k ∈ read_keys -> d1 !! k = d2 !! k) ->
     filter_step acc (PDict d1) = filter_step acc (PDict d2))
  /\ (forall d k v acc, k ∉ read_keys ->
        filter_step acc (PDict (<[k:=v]> d)) = filter_step acc (PDict d))
  /\ (forall d k acc, k ∉ read_keys ->
        filter_step acc (PDict (delete k d)) = filter_step acc (PDict d)).
Proof.
  split; [exact filter_step_agree|]. split.
  - intros d k v acc Hk. apply filter_step_agree. intros k' Hk'.
    apply lookup_insert_ne. congruence.
  - intros d k acc Hk. apply filter_step_agree. intros k' Hk'.
    apply lookup_delete_ne. congruence.
Qed.

(** X4, an instance: a [currency] member added to the boundary record. *)
Lemma filter_step_reads_six_keys_witness :
  filter_step [] (PDict (<["currency" := PStr "USD"]> (fields_of ipo_boundary)))
  = filter_step [] (PDict (fields_of ipo_boundary)).
Proof.
  apply (proj1 (proj2 filter_step_reads_six_keys)). compute_done.
Defined.

(** ** Separators in a price text *)

Lemma is_char_sym c d : is_char c d = is_char d c.
Proof. unfold is_char. apply N.eqb_sym. Qed.

Lemma str_split_length c s :
  length (str_split c s) = S (count_char c s).
Proof.
  induction s as [|d s IH]; [reflexivity|]. simpl.
  destruct (is_char d c); simpl.
  - now rewrite IH.
  - destruct (str_split c s); simpl in *; [discriminate|assumption].
Qed.

Lemma str_contains_count c s :
  str_contains c s = true <-> (1 <= count_char c s)%nat.
Proof.
  induction s as [|d s IH]; simpl; [split; [discriminate|lia]|].
  rewrite (is_char_sym c d). destruct (is_char d c); simpl.
  - split; [lia|reflexivity].
  - exact IH.
Qed.

Lemma float_of_string_raises s e : float_of_string s = Raise e -> e = ValueError.
Proof.
  unfold float_of_string.
  destruct (strip_underscores _ _) as [l|]; [|congruence].
  destruct (take_sign l) as [sg body].
  destruct (_ || _); [discriminate|].
  destruct (lower_is body "nan"); [discriminate|].
  destruct (parse_decimal body) as [[m e10]|]; congruence.
Qed.

Lemma working_price_range s :
  str_contains "-" s = true ->
  working_price (PStr s) =
  match str_split "-" s with
  | [low; high] =>
      l ← float_of_string low; h ← float_of_string high;
      Ok (NFloat (float_mean l h))
  | _ => Raise ValueError
  end.
Proof. intros H. unfold working_price. simpl. now rewrite H. Qed.

Lemma filter_step_price_raises d v e acc :
  d !! "price" = Some v -> truthy v = true -> working_price v = Raise e ->
  filter_step acc (PDict d) = Raise e.
Proof.
  intros Hd Ht He. apply filter_step_raises.
  unfold emitted, normalize, normalized_price. simpl field. rewrite Hd.
  simpl default. rewrite (working_price_truthy _ Ht), He. reflexivity.
Qed.

(** X5.  For a price text containing ['-']: the conversion can only fail
    with [ValueError]; it succeeds exactly when the text splits into two
    parts that [float] accepts; it fails whenever the text has two or more
    separators or begins with one, so a negative number written as text is
    never accepted; and that failure leaves the loop turn. *)
Theorem price_text_with_dashes (s : string) :
  str_contains "-" s = true ->
  (forall e, working_price (PStr s) = Raise e -> e = ValueError)
  /\ ((exists p, working_price (PStr s) = Ok p) <->
      exists low high, str_split "-" s = [low; high] /\
        float_accepts low = true /\ float_accepts high = true)
  /\ ((2 <= count_char "-" s)%nat -> working_price (PStr s) = Raise ValueError)
  /\ (forall t, s = String "-" t -> working_price (PStr s) = Raise ValueError)
  /\ (forall d acc e, d !! "price" = Some (PStr s) ->
        working_price (PStr s) = Raise e ->
        filter_step acc (PDict d) = Raise e).
Proof.
  intros Hdash.
  assert (Hstep : forall d acc e, d !! "price" = Some (PStr s) ->
            working_price (PStr s) = Raise e ->
            filter_step acc (PDict d) = Raise e).
  { intros d acc e Hd He. apply (filter_step_price_raises d (PStr s)); auto.
    apply truthy_str. now apply (str_contains_nonempty "-"). }
  rewrite (working_price_range s Hdash).
  rewrite (working_price_range s Hdash) in Hstep.
  pose proof (str_split_length "-" s) as Hlen.
  split; [|split; [|split; [|split; [|exact Hstep]]]].
  - intros e. destruct (str_split "-" s) as [|low [|high [|? ?]]]; try congruence.
    destruct (float_of_string low) as [l|e1] eqn:Hl; simpl.
    + destruct (float_of_string high) as [h|e2] eqn:Hh; simpl; [discriminate|].
      intros [= <-]. now apply (float_of_string_raises high).
    + intros [= <-]. now apply (float_of_string_raises low).
  - unfold float_accepts. split.
    + intros [p Hp].
      destruct (str_split "-" s) as [|low [|high [|? ?]]]; try discriminate.
      exists low, high. split; [reflexivity|].
      destruct (float_of_string low); [|discriminate].
      destruct (float_of_string high); [|discriminate]. auto.
    + intros (low & high & -> & Hl & Hh).
      destruct (float_of_string low); [|discriminate].
      destruct (float_of_string high); [|discriminate]. simpl. eauto.
  - intros Hc.
    destruct (str_split "-" s) as [|low [|high [|? ?]]]; try reflexivity.
    simpl in Hlen. lia.
  - intros t ->. simpl in Hlen |- *.
    destruct (str_split "-" t) as [|h [|h2 rest]]; try reflexivity.
Qed.

(** X5, an instance: the text ["-5"]. *)
Lemma price_text_with_dashes_witness :
  working_price (PStr "-5") = Raise ValueError.
Proof.
  refine (proj1 (proj2 (proj2 (proj2 (price_text_with_dashes "-5" _)))) "5" _);
    reflexivity.
Defined.

(** ** When the fetcher raises *)

(** X6.  The fetcher raises in three cases only: the request itself raises;
    the status is 200 and the body does not decode; the status is 200 and
    the decoded body is not an object ([AttributeError]).  With any other
    status it returns, whatever the body. *)
Theorem get_todays_ipos_raises (w : world) (e : exn) :
  (get_todays_ipos w).2 = Raise e <->
  (http_get w (fetch_url w) = NoResponse /\ e = RequestException) \/
  (exists j, http_get w (fetch_url w) = Response 200 j /\
     (j = Raise e \/
      exists data, j = Ok data /\ is_dict data = false /\ e = AttributeError)).
Proof.
  unfold get_todays_ipos.
  destruct (http_get w (fetch_url w)) as [st j|] eqn:Hg.
  - destruct (Z.eqb_spec st 200) as [->|Hst].
    + simpl. split.
      * intros H. right. exists j. split; [reflexivity|].
        destruct j as [data|e']; simpl in H; [|left; congruence].
        right. exists data. split; [reflexivity|].
        destruct data; simpl in H; try discriminate; injection H as <-; auto.
      * intros [[[=] _]|(j' & [= <-] & [->|(data & -> & Hd & ->)])];
          [reflexivity|]. now destruct data.
    + simpl. split; [discriminate|].
      intros [[[=] _]|(j' & [= -> <-] & _)]. contradiction.
  - simpl. split.
    + intros [= <-]. left. auto.
    + intros [[_ ->]|(j & [=] & _)]. reflexivity.
Qed.

(** X6, an instance: no network. *)
Lemma get_todays_ipos_raises_witness :
  (get_todays_ipos offline_world).2 = Raise RequestException.
Proof.
  apply (proj2 (get_todays_ipos_raises offline_world RequestException)).
  left. split; reflexivity.
Defined.

(** ** The body of the message *)

Lemma append_cons (x : ascii) (a b : string) :
  String x a ++ b = String x (a ++ b).
Proof. reflexivity. Qed.

Lemma append_assoc (a b c : string) : (a ++ b) ++ c = a ++ (b ++ c).
Proof.
  induction a as [|x a IH]; [reflexivity|].
  now rewrite !append_cons, IH.
Qed.

Lemma append_nil_r (a : string) : a ++ "" = a.
Proof.
  induction a as [|x a IH]; [reflexivity|].
  now rewrite append_cons, IH.
Qed.

Lemma join_app (l1 l2 : list string) : join (l1 ++ l2) = join l1 ++ join l2.
Proof.
  induction l1 as [|x l1 IH]; simpl; [reflexivity|].
  now rewrite IH, append_assoc.
Qed.

Section Body.

Variable py_str : pyval -> string.
Variable py_format : number -> string -> string.

Lemma fold_blocks qs (start : string) :
  fold_left (fun body ipo => body ++ block py_str py_format ipo) qs start
  = start ++ join (block py_str py_format <$> qs).
Proof.
  revert start. induction qs as [|q qs IH]; intros start.
  - simpl. now rewrite append_nil_r.
  - cbn [fold_left]. rewrite IH, fmap_cons. cbn [join].
    apply append_assoc.
Qed.

(** X7.  For a non-empty list the body is the header line followed by one
    block per dict, in the order of the list; the blocks of a longer list
    are appended to the body of its beginning. *)
Theorem email_body_blocks :
  (forall qs, qs <> [] ->
     email_body py_str py_format qs
     = body_header ++ join (block py_str py_format <$> qs))
  /\ (forall qs1 qs2, qs1 <> [] ->
        email_body py_str py_format (qs1 ++ qs2)
        = email_body py_str py_format qs1
          ++ join (block py_str py_format <$> qs2)).
Proof.
  assert (H : forall qs, qs <> [] ->
            email_body py_str py_format qs
            = body_header ++ join (block py_str py_format <$> qs)).
  { intros [|q qs] Hne; [congruence|]. unfold email_body. apply fold_blocks. }
  split; [exact H|].
  intros qs1 qs2 Hne. rewrite (H qs1 Hne).
  rewrite H by (destruct qs1; [congruence|discriminate]).
  now rewrite fmap_app, join_app, append_assoc.
Qed.

End Body.

(** X7, an instance: one dict. *)
Lemma email_body_blocks_witness :
  email_body sample_str sample_format [boundary_dict]
  = body_header ++ join [block sample_str sample_format boundary_dict].
Proof.
  refine (proj1 (email_body_blocks sample_str sample_format) [boundary_dict] _).
  discriminate.
Defined.

(** ** The lines that [main] prints *)

Ltac str_neq H := cbv [String.append] in H; discriminate H.

Section Marker.

Variable py_str : pyval -> string.
Variable py_format : number -> string -> string.

Lemma mail_line_not_completion w msg : mail_line w msg <> completion_line.
Proof. unfold mail_line. destruct (smtp w msg); intros H; str_neq H. Qed.

(** The three ways in which [main] goes on after the fetch. *)
Lemma after_fetch_cases w v :
  (exists e, after_fetch py_str py_format w v = ([], Raise e)) \/
  (exists n e,
     after_fetch py_str py_format w v
     = (["Found " ++ str_int n ++ " IPO(s) scheduled for today"], Raise e)) \/
  (exists n out,
     after_fetch py_str py_format w v
     = (["Found " ++ str_int n ++ " IPO(s) scheduled for today";
         "Found " ++ str_int (Z.of_nat (length out))
           ++ " IPO(s) above $200M threshold";
         mail_line w (message_of py_str py_format w out);
         banner; completion_line], Ok tt)).
Proof.
  unfold after_fetch.
  destruct (py_len v) as [n|e] eqn:Hn; [|left; eauto].
  right.
  assert (Hi : exists items, py_iter v = Ok items)
    by (destruct v; try discriminate; simpl; eauto).
  destruct Hi as [items Hi]. rewrite Hi.
  cbn [lift print mbind io_bind app].
  destruct (filter_large_ipos items) as [out|e] eqn:Hf.
  - right. exists n, out. rewrite send_email_prints. reflexivity.
  - left. exists n, e. reflexivity.
Qed.

(** X8.  Every run prints the start line and the banner first.  The line
    "IPO Monitor completed successfully" is printed exactly when [main]
    returns normally, and is then the last line: a run that raises never
    prints it. *)
Theorem main_completion_marker (w : world) :
  (exists rest, (main py_str py_format w).1 = start_line w :: banner :: rest) /\
  ((main py_str py_format w).2 = Ok tt <->
   completion_line ∈ (main py_str py_format w).1) /\
  ((main py_str py_format w).2 = Ok tt ->
   last (main py_str py_format w).1 = Some completion_line).
Proof.
  assert (Hs : start_line w <> completion_line)
    by (unfold start_line; intros H; str_neq H).
  assert (Hb : banner <> completion_line) by discriminate.
  pose proof (mail_line_not_completion w) as Hmail.
  destruct (get_todays_ipos w) as [log [v|e]] eqn:Hf.
  - assert (Hlog : log = [] \/
              exists st, log = ["Error fetching IPO data: " ++ str_int st]).
    { unfold get_todays_ipos in Hf.
      destruct (http_get w (fetch_url w)) as [st j|]; [|discriminate].
      destruct (st =? 200).
      - injection Hf as <- _. auto.
      - injection Hf as <- _. eauto. }
    assert (Hin : completion_line ∉ log).
    { destruct Hlog as [->|[st ->]]; [apply not_elem_of_nil|].
      intros H%list_elem_of_singleton. str_neq H. }
    destruct (after_fetch_cases w v)
      as [[e Ha]|[(n & e & Ha)|(n & out & Ha)]];
      rewrite (main_run py_str py_format w _ _ _ _ Hf Ha); cbn [fst snd].
    + split; [eauto|]. split; [|discriminate].
      split; [discriminate|]. rewrite app_nil_r.
      intros H. apply elem_of_cons in H as [H|H]; [congruence|].
      apply elem_of_cons in H as [H|H]; [congruence|contradiction].
    + split; [eauto|]. split; [|discriminate].
      split; [discriminate|].
      intros H. apply elem_of_app in H as [H|H].
      * apply elem_of_cons in H as [H|H]; [congruence|].
        apply elem_of_cons in H as [H|H]; [congruence|contradiction].
      * apply list_elem_of_singleton in H. str_neq H.
    + split; [eauto|]. split; [split; [intros _|reflexivity]|intros _].
      * rewrite elem_of_app. right. rewrite !elem_of_cons. auto 10.
      * rewrite last_app. reflexivity.
  - rewrite (main_fetch_raises py_str py_format w _ _ Hf). cbn [fst snd].
    assert (Hlog : log = []).
    { unfold get_todays_ipos in Hf.
      destruct (http_get w (fetch_url w)) as [st j|]; [|now injection Hf].
      destruct (st =? 200); [now injection Hf|discriminate]. }
    subst log. split; [eauto|]. split; [|discriminate].
    split; [discriminate|].
    intros H. apply elem_of_cons in H as [H|H]; [congruence|].
    apply list_elem_of_singleton in H. congruence.
Qed.

End Marker.

(** X8, an instance: the run that meets a 404 and a refused login ends with
    the completion line. *)
Lemma main_completion_marker_witness :
  last (main sample_str sample_format failing_world).1 = Some completion_line.
Proof.
  apply (proj2 (proj2 (main_completion_marker sample_str sample_format
                         failing_world))).
  vm_compute. reflexivity.
Defined.

(** ** A calendar that is not a list *)

Section Calendar.

Variable py_str : pyval -> string.
Variable py_format : number -> string -> string.

Lemma after_fetch_no_len w v :
  has_len v = false ->
  after_fetch py_str py_format w v = ([], Raise TypeError).
Proof. intros H. now destruct v. Qed.

Lemma after_fetch_iter_raises w v n items e :
  py_len v = Ok n -> py_iter v = Ok items ->
  filter_large_ipos items = Raise e ->
  after_fetch py_str py_format w v
  = (["Found " ++ str_int n ++ " IPO(s) scheduled for today"], Raise e).
Proof.
  intros Hn Hi Hf. unfold after_fetch. rewrite Hn, Hi.
  cbn [lift print mbind io_bind app]. now rewrite Hf.
Qed.

Lemma after_fetch_iter_empty w v :
  py_len v = Ok 0 -> py_iter v = Ok [] ->
  after_fetch py_str py_format w v
  = after_fetch py_str py_format w (PList []).
Proof. intros Hn Hi. unfold after_fetch. now rewrite Hn, Hi. Qed.

(** X9.  When the response has an [ipoCalendar] member that is not a list,
    [main] does not take it as empty: [null], a boolean or a number makes
    [len] raise [TypeError] before any count is printed; a non-empty string
    or object is counted and then makes the filter raise [AttributeError];
    only an empty string or object behaves like an empty list. *)
Theorem main_calendar_not_a_list (w : world) (d : gmap string pyval) (v : pyval) :
  http_get w (fetch_url w) = Response 200 (Ok (PDict d)) ->
  d !! "ipoCalendar" = Some v ->
  (has_len v = false ->
     main py_str py_format w = ([start_line w; banner], Raise TypeError))
  /\ (forall s, v = PStr s -> s <> EmptyString ->
        main py_str py_format w
        = ([start_line w; banner;
            "Found " ++ str_int (Z.of_nat (String.length s))
              ++ " IPO(s) scheduled for today"], Raise AttributeError))
  /\ (forall m, v = PDict m -> m <> ∅ ->
        main py_str py_format w
        = ([start_line w; banner;
            "Found " ++ str_int (Z.of_nat (size m))
              ++ " IPO(s) scheduled for today"], Raise AttributeError))
  /\ (v = PStr EmptyString \/ v = PDict ∅ ->
      main py_str py_format w
      = ([start_line w; banner;
          "Found 0 IPO(s) scheduled for today";
          "Found 0 IPO(s) above $200M threshold";
          mail_line w (message_of py_str py_format w []);
          banner; "IPO Monitor completed successfully"], Ok tt)).
Proof.
  intros Hg Hv. pose proof (get_todays_ipos_ok w d Hg) as Hf.
  rewrite Hv in Hf. simpl in Hf.
  split; [|split; [|split]].
  - intros Hl.
    exact (main_run py_str py_format w _ _ _ _ Hf (after_fetch_no_len w v Hl)).
  - intros s -> Hs.
    refine (main_run py_str py_format w _ _ _ _ Hf
              (after_fetch_iter_raises w (PStr s) _ _ _ eq_refl eq_refl _)).
    destruct s as [|c s]; [congruence|]. reflexivity.
  - intros m -> Hm.
    refine (main_run py_str py_format w _ _ _ _ Hf
              (after_fetch_iter_raises w (PDict m) _ _ _ eq_refl eq_refl _)).
    destruct (map_to_list m) as [|[k x] l] eqn:Hl.
    + now apply map_to_list_empty_iff in Hl.
    + reflexivity.
  - intros Hempty.
    assert (Ha : after_fetch py_str py_format w v
                 = after_fetch py_str py_format w (PList [])).
    { destruct Hempty as [-> | ->]; apply after_fetch_iter_empty; reflexivity. }
    rewrite (after_fetch_list py_str py_format w [] [] eq_refl) in Ha.
    exact (main_run py_str py_format w _ _ _ _ Hf Ha).
Qed.

End Calendar.

(** X9, an instance: [{"ipoCalendar": null}]. *)
Lemma main_calendar_not_a_list_witness :
  main sample_str sample_format null_calendar_world
  = ([start_line null_calendar_world; banner], Raise TypeError).
Proof.
  refine (proj1 (main_calendar_not_a_list sample_str sample_format
                   null_calendar_world
                   (fields_of (record [("ipoCalendar", PNone)])) PNone
                   eq_refl eq_refl) eq_refl).
Defined.

(** ** The exceptions of a loop turn *)

Lemma int_of_string_raises s e : int_of_string s = Raise e -> e = ValueError.
Proof.
  unfold int_of_string.
  destruct (take_sign _) as [sg body].
  destruct (strip_underscores _ body) as [[|c ds]|]; try congruence.
  destruct (forallb is_digit (c :: ds)); congruence.
Qed.

Lemma to_int_raises f e :
  Float.to_int f = Raise e -> e = ValueError \/ e = OverflowError.
Proof. destruct f; simpl; intros [=]; auto. Qed.

Lemma of_int_raises n e : Float.of_int n = Raise e -> e = OverflowError.
Proof. unfold Float.of_int. destruct (_ <? _); congruence. Qed.

Lemma working_price_raises v e :
  truthy v = true -> working_price v = Raise e ->
  e = ValueError \/ e = OverflowError \/ (e = TypeError /\ is_container v = true).
Proof.
  intros Ht. unfold working_price. destruct (price_range v) as [s|] eqn:Hr.
  - destruct (str_split "-" s) as [|low [|high [|? ?]]]; try (intros [= <-]; auto).
    destruct (float_of_string low) as [l|e1] eqn:Hl; simpl.
    + destruct (float_of_string high) as [h|e2] eqn:Hh; simpl; [discriminate|].
      intros [= <-]. left. now apply (float_of_string_raises high).
    + intros [= <-]. left. now apply (float_of_string_raises low).
  - rewrite Ht. destruct v; simpl; try discriminate.
    + destruct (Float.of_int n) eqn:Hn; simpl; [discriminate|].
      intros [= <-]. right. left. now apply (of_int_raises n).
    + destruct (float_of_string s) eqn:Hs; simpl; [discriminate|].
      intros [= <-]. left. now apply (float_of_string_raises s).
    + intros [= <-]. auto.
    + intros [= <-]. auto.
Qed.

Lemma working_shares_raises v e :
  truthy v = true -> py_int v = Raise e ->
  e = ValueError \/ e = OverflowError \/ (e = TypeError /\ is_container v = true).
Proof.
  intros Ht. destruct v; simpl; try discriminate.
  - intros H. apply to_int_raises in H as [->| ->]; auto.
  - intros H. apply int_of_string_raises in H as ->. auto.
  - intros [= <-]. auto.
  - intros [= <-]. auto.
Qed.

Lemma normalize_raises d e :
  normalize (PDict d) = Raise e ->
  normalized_price (PDict d) = Raise e \/
  (exists p, normalized_price (PDict d) = Ok p /\
     normalized_shares (PDict d) = Raise e) \/
  (exists p n, normalized_price (PDict d) = Ok p /\
     normalized_shares (PDict d) = Ok n /\ num_mul_int p n = Raise e).
Proof.
  unfold normalize.
  destruct (normalized_price (PDict d)) as [p|e1]; [|intros [= ->]; auto].
  destruct (normalized_shares (PDict d)) as [n|e2]; [|intros [= ->]; eauto].
  cbn [mbind result_bind].
  destruct (num_mul_int p n) as [a|e3] eqn:Ha; [discriminate|].
  intros [= ->]. eauto 10.
Qed.

Lemma normalized_price_raises d e :
  normalized_price (PDict d) = Raise e ->
  e = ValueError \/ e = OverflowError \/
  (e = TypeError /\ is_container (field (PDict d) "price") = true).
Proof.
  unfold normalized_price.
  destruct (truthy (field (PDict d) "price")) eqn:Ht.
  - rewrite (working_price_truthy _ Ht). now apply working_price_raises.
  - now rewrite (working_price_falsy _ Ht).
Qed.

Lemma normalized_shares_raises d e :
  normalized_shares (PDict d) = Raise e ->
  e = ValueError \/ e = OverflowError \/
  (e = TypeError /\ is_container (field (PDict d) "numberOfShares") = true).
Proof.
  unfold normalized_shares.
  destruct (truthy (field (PDict d) "numberOfShares")) eqn:Ht.
  - rewrite (working_shares_truthy _ Ht). now apply working_shares_raises.
  - now rewrite (working_shares_falsy _ Ht).
Qed.

Lemma num_mul_int_raises p n e : num_mul_int p n = Raise e -> e = OverflowError.
Proof.
  destruct p as [z|f]; simpl; [discriminate|].
  destruct (Float.of_int n) eqn:Ho; simpl; [discriminate|].
  intros [= <-]. now apply (of_int_raises n).
Qed.

(** X10.  A record that is not an object makes the loop turn raise
    [AttributeError], and an object never does: on an object the turn can
    only raise [ValueError], [OverflowError] or [TypeError], the last one
    only when [price] or [numberOfShares] is a list or an object. *)
Theorem filter_step_exceptions (ipo : pyval) (acc : list qualifying_ipo) :
  (is_dict ipo = false -> filter_step acc ipo = Raise AttributeError)
  /\ (forall e, filter_step acc ipo = Raise e ->
        (e = AttributeError <-> is_dict ipo = false) /\
        (e = TypeError ->
         is_container (field ipo "price") = true \/
         is_container (field ipo "numberOfShares") = true) /\
        (e = AttributeError \/ e = ValueError \/ e = TypeError \/
         e = OverflowError)).
Proof.
  split; [intros H; now destruct ipo|]. intros e.
  rewrite filter_step_raises. unfold emitted.
  destruct ipo as [| | | | | |d]; try (simpl; intros [= <-]; split; [tauto|];
    split; [discriminate|auto]).
  destruct (normalize (PDict d)) as [t|e'] eqn:Hn; [discriminate|].
  simpl. intros [= ->].
  assert (Hcases : e = ValueError \/ e = OverflowError \/
            (e = TypeError /\
             (is_container (field (PDict d) "price") = true \/
              is_container (field (PDict d) "numberOfShares") = true))).
  { apply normalize_raises in Hn as [Hp|[(p & _ & Hs)|(p & n & _ & _ & Hm)]].
    - apply normalized_price_raises in Hp as [?|[?|[? ?]]]; auto.
    - apply normalized_shares_raises in Hs as [?|[?|[? ?]]]; auto.
    - apply num_mul_int_raises in Hm. auto. }
  split; [|split].
  - split; [|discriminate]. intros ->.
    destruct Hcases as [?|[?|[? _]]]; discriminate.
  - intros ->. destruct Hcases as [?|[?|[_ ?]]]; try discriminate. assumption.
  - destruct Hcases as [?|[?|[? _]]]; auto.
Qed.

(** X10, an instance: a calendar element that is a number. *)
Lemma filter_step_exceptions_witness :
  filter_step [] (PInt 7) = Raise AttributeError.
Proof.
  apply (proj1 (filter_step_exceptions (PInt 7) [])). reflexivity.
Defined.

(** ** Whole numbers are filtered exactly *)

Lemma iter_pos_nat {A} (f : A -> A) p x :
  SpecFloat.iter_pos f p x = Nat.iter (Pos.to_nat p) f x.
Proof.
  revert x. induction p as [p IH|p IH|]; intros x;
    cbn [SpecFloat.iter_pos].
  - rewrite !IH, Pos2Nat.inj_xI, Nat.iter_succ_r.
    replace (2 * Pos.to_nat p)%nat with (Pos.to_nat p + Pos.to_nat p)%nat by lia.
    now rewrite Nat.iter_add.
  - rewrite !IH, Pos2Nat.inj_xO.
    replace (2 * Pos.to_nat p)%nat with (Pos.to_nat p + Pos.to_nat p)%nat by lia.
    now rewrite Nat.iter_add.
  - reflexivity.
Qed.

Lemma shl_Z m k : Z.pos (shl m k) = Z.pos m * 2 ^ Z.of_nat k.
Proof.
  induction k as [|k IH].
  - simpl. lia.
  - change (shl m (S k)) with (xO (shl m k)).
    rewrite Nat2Z.inj_succ, Z.pow_succ_r by lia.
    rewrite Pos2Z.inj_xO, IH. lia.
Qed.

Lemma shl_add m i j : shl (shl m i) j = shl m (j + i).
Proof. unfold shl. now rewrite Nat.iter_add. Qed.

Lemma shl_digits m k :
  Z.pos (digits2_pos (shl m k)) = Z.pos (digits2_pos m) + Z.of_nat k.
Proof.
  induction k as [|k IH].
  - simpl. lia.
  - change (shl m (S k)) with (xO (shl m k)). simpl digits2_pos.
    rewrite Pos2Z.inj_succ, IH. lia.
Qed.

Lemma shl_mul a b i j : (shl a i * shl b j)%positive = shl (a * b) (i + j).
Proof.
  apply Pos2Z.inj. rewrite Pos2Z.inj_mul, !shl_Z, Pos2Z.inj_mul.
  rewrite Nat2Z.inj_add, Z.pow_add_r by lia. ring.
Qed.

Lemma shr_shl m k :
  Nat.iter k shr_1 (Build_shr_record (Z.pos (shl m k)) false false)
  = Build_shr_record (Z.pos m) false false.
Proof.
  induction k as [|k IH]; [reflexivity|].
  rewrite Nat.iter_succ_r. exact IH.
Qed.

Lemma fexp_normal x : -1074 <= x - 53 -> fexp Float.prec Float.emax x = x - 53.
Proof. intros H. unfold fexp, emin, Float.prec, Float.emax. lia. Qed.

(** Shifting a mantissa with [k] trailing zeros down to 53 bits loses
    nothing. *)
Lemma shr_fexp_exact m k e :
  let d := Z.pos (digits2_pos m) in
  d <= 53 -> 53 <= d + Z.of_nat k -> -1074 <= e + (d + Z.of_nat k - 53) ->
  shr_fexp Float.prec Float.emax (Z.pos (shl m k)) e loc_Exact
  = (Build_shr_record (Z.pos (shl m (Z.to_nat (53 - d)))) false false,
     e + (d + Z.of_nat k - 53)).
Proof.
  intros d Hd Hk He. unfold shr_fexp. cbn [Zdigits2 shr_record_of_loc].
  rewrite shl_digits. fold d. rewrite fexp_normal by lia.
  replace (d + Z.of_nat k + e - 53 - e) with (d + Z.of_nat k - 53) by lia.
  destruct (d + Z.of_nat k - 53) as [|t|t] eqn:Ht; try lia.
  - cbn [shr]. rewrite Z.add_0_r.
    now replace (Z.to_nat (53 - d)) with k by lia.
  - cbn [shr]. rewrite iter_pos_nat. f_equal.
    replace k with (Pos.to_nat t + Z.to_nat (53 - d))%nat by lia.
    rewrite <- shl_add. apply shr_shl.
Qed.

Lemma round_exact s m k e :
  let d := Z.pos (digits2_pos m) in
  d <= 53 -> 53 <= d + Z.of_nat k ->
  -1074 <= e + (d + Z.of_nat k - 53) <= 971 ->
  binary_round_aux Float.prec Float.emax s (Z.pos (shl m k)) e loc_Exact
  = S754_finite s (shl m (Z.to_nat (53 - d))) (e + (d + Z.of_nat k - 53)).
Proof.
  intros d Hd Hk He. unfold binary_round_aux.
  rewrite (shr_fexp_exact m k e) by (fold d; lia). fold d.
  cbn [shr_m loc_of_shr_record round_nearest_even].
  pose proof (shr_fexp_exact m (Z.to_nat (53 - d)) (e + (d + Z.of_nat k - 53)))
    as H2.
  cbv zeta in H2. fold d in H2. rewrite H2 by lia.
  cbn [shr_m].
  replace (e + (d + Z.of_nat k - 53) + (d + Z.of_nat (Z.to_nat (53 - d)) - 53))
    with (e + (d + Z.of_nat k - 53)) by lia.
  unfold Float.emax, Float.prec.
  destruct (Z.leb_spec (e + (d + Z.of_nat k - 53)) (1024 - 53)); [reflexivity|lia].
Qed.

Lemma digits_lower p : 2 ^ (Z.pos (digits2_pos p) - 1) <= Z.pos p.
Proof.
  rewrite digits2_pos_size. pose proof (Pos.size_le p) as H.
  assert (Hz : 2 ^ Z.pos (Pos.size p) <= 2 * Z.pos p).
  { change 2 with (Z.pos 2) at 1. rewrite <- Pos2Z.inj_pow. lia. }
  replace (Z.pos (Pos.size p)) with (Z.succ (Z.pos (Pos.size p) - 1)) in Hz by lia.
  rewrite Z.pow_succ_r in Hz by lia. lia.
Qed.

Lemma digits_upper p : Z.pos p < 2 ^ Z.pos (digits2_pos p).
Proof.
  rewrite digits2_pos_size. pose proof (Pos.size_gt p) as H.
  change 2 with (Z.pos 2). rewrite <- Pos2Z.inj_pow. lia.
Qed.

Lemma digits_le_53 p : Z.pos p < 2 ^ 53 -> Z.pos (digits2_pos p) <= 53.
Proof.
  intros H. pose proof (digits_lower p) as Hl.
  assert (Hlt : 2 ^ (Z.pos (digits2_pos p) - 1) < 2 ^ 53) by lia.
  apply Z.pow_lt_mono_r_iff in Hlt; lia.
Qed.

Lemma digits_mul_ge p n :
  Z.pos (digits2_pos p) + Z.pos (digits2_pos n) - 1
  <= Z.pos (digits2_pos (p * n)).
Proof.
  pose proof (digits_lower p) as Hp. pose proof (digits_lower n) as Hn.
  pose proof (digits_upper (p * n)) as Hpn.
  assert (Hpow : 2 ^ (Z.pos (digits2_pos p) - 1 + (Z.pos (digits2_pos n) - 1))
                 < 2 ^ Z.pos (digits2_pos (p * n))).
  { rewrite Z.pow_add_r by lia. rewrite Pos2Z.inj_mul in Hpn.
    assert (0 < 2 ^ (Z.pos (digits2_pos p) - 1)) by (apply Z.pow_pos_nonneg; lia).
    assert (0 < 2 ^ (Z.pos (digits2_pos n) - 1)) by (apply Z.pow_pos_nonneg; lia).
    nia. }
  apply Z.pow_lt_mono_r_iff in Hpow; lia.
Qed.

Lemma binary_round_pos s p :
  Z.pos p < 2 ^ 53 ->
  binary_round Float.prec Float.emax s p 0 = float_of_pos s p.
Proof.
  intros Hp. pose proof (digits_le_53 p Hp) as Hd.
  unfold binary_round, float_of_pos.
  rewrite fexp_normal by lia. unfold shl_align.
  replace (Z.pos (digits2_pos p) + 0 - 53 - 0)
    with (Z.pos (digits2_pos p) - 53) by lia.
  destruct (Z.pos (digits2_pos p) - 53) as [|q|q] eqn:Hq; try lia.
  - change (Z.pos p) with (Z.pos (shl p 0)).
    rewrite round_exact by (cbn [Z.of_nat]; lia). f_equal. cbn [Z.of_nat]. lia.
  - rewrite Pos2Nat.inj_iter.
    change (nat_rect (fun _ => positive) p (fun _ => xO) (Pos.to_nat q))
      with (shl p (Pos.to_nat q)).
    rewrite round_exact by lia. f_equal. lia.
Qed.

Lemma of_Z_exact z :
  z <> 0 -> Z.abs z < 2 ^ 53 ->
  Float.of_Z z = float_of_pos (z <? 0) (Z.to_pos (Z.abs z)).
Proof.
  intros Hz Hb. destruct z as [|p|p]; [congruence| |];
    apply binary_round_pos; exact Hb.
Qed.


Lemma mul_compare_pos a b c : 0 < c -> (a * c ?= b * c) = (a ?= b).
Proof.
  intros Hc. destruct (Z.compare_spec a b) as [->|H|H].
  - apply Z.compare_refl.
  - apply Z.compare_lt_iff. nia.
  - apply Z.compare_gt_iff. nia.
Qed.




Lemma small_int_converts z :
  Z.abs z < 2 ^ 53 -> Float.of_int z = Ok (Float.of_Z z).
Proof.
  intros H. apply of_int_bounded.
  assert (2 ^ 53 < Float.overflow_bound) by reflexivity. lia.
Qed.



(** ** Midpoints of whole-number ranges *)

Lemma float_of_pos_scaled s p : float_of_pos s p = scaled s p 0.
Proof. unfold float_of_pos, scaled. now rewrite Z.add_0_r. Qed.

Lemma binary_round_shl s m k e :
  let d := Z.pos (digits2_pos m) in
  d <= 53 -> -1074 <= d + Z.of_nat k + e - 53 <= 971 ->
  binary_round Float.prec Float.emax s (shl m k) e
  = S754_finite s (shl m (Z.to_nat (53 - d))) (d + Z.of_nat k + e - 53).
Proof.
  intros d Hd He. unfold binary_round.
  rewrite shl_digits. fold d. rewrite fexp_normal by lia. unfold shl_align.
  destruct (d + Z.of_nat k + e - 53 - e) as [|q|q] eqn:Hq.
  - rewrite round_exact by (fold d; lia). fold d. f_equal. lia.
  - rewrite round_exact by (fold d; lia). fold d. f_equal. lia.
  - rewrite Pos2Nat.inj_iter.
    change (nat_rect (fun _ => positive) (shl m k) (fun _ => xO) (Pos.to_nat q))
      with (shl (shl m k) (Pos.to_nat q)).
    rewrite shl_add, round_exact by (fold d; lia). fold d.
    f_equal. lia.
Qed.

Lemma shl_plus a b k : (shl a k + shl b k)%positive = shl (a + b) k.
Proof.
  apply Pos2Z.inj. rewrite Pos2Z.inj_add, !shl_Z, Pos2Z.inj_add. ring.
Qed.

Lemma shl_align_down m e e' :
  e' <= e -> fst (shl_align m e e') = shl m (Z.to_nat (e - e')).
Proof.
  intros H. unfold shl_align.
  destruct (e' - e) as [|q|q] eqn:Hq; try lia.
  - replace (e - e') with 0 by lia. reflexivity.
  - cbn [fst]. rewrite Pos2Nat.inj_iter.
    replace (Z.to_nat (e - e')) with (Pos.to_nat q) by lia. reflexivity.
Qed.

Lemma add_exact a b :
  Z.pos (a + b) < 2 ^ 53 ->
  Float.add (float_of_pos false a) (float_of_pos false b)
  = float_of_pos false (a + b).
Proof.
  intros Hab.
  assert (Ha : Z.pos a < 2 ^ 53) by lia.
  assert (Hb : Z.pos b < 2 ^ 53) by lia.
  pose proof (digits_le_53 _ Ha) as Hda. pose proof (digits_le_53 _ Hb) as Hdb.
  pose proof (digits_le_53 _ Hab) as Hdab.
  unfold float_of_pos at 1 2. unfold Float.add. cbn [SFadd cond_Zopp].
  set (ea := Z.pos (digits2_pos a) - 53). set (eb := Z.pos (digits2_pos b) - 53).
  set (ez := Z.min ea eb).
  rewrite !shl_align_down by (unfold ez; lia).
  rewrite !shl_add.
  replace (Z.to_nat (ea - ez) + Z.to_nat (53 - Z.pos (digits2_pos a)))%nat
    with (Z.to_nat (- ez)) by (unfold ea, ez, eb; lia).
  replace (Z.to_nat (eb - ez) + Z.to_nat (53 - Z.pos (digits2_pos b)))%nat
    with (Z.to_nat (- ez)) by (unfold ea, ez, eb; lia).
  rewrite <- Pos2Z.inj_add, shl_plus. cbn [binary_normalize].
  rewrite binary_round_shl by (unfold ea, ez, eb; lia).
  unfold float_of_pos. f_equal. unfold ea, ez, eb. lia.
Qed.

Lemma of_Z_2 : Float.of_Z 2 = S754_finite false (2 ^ 52) (-51).
Proof. reflexivity. Qed.

Lemma div_eucl_shift m : Z.div_eucl (Z.shiftl m 53) (Z.pos (2 ^ 52)) = (2 * m, 0).
Proof.
  rewrite Z.shiftl_mul_pow2 by lia.
  pose proof (Z.div_mul (2 * m) (Z.pos (2 ^ 52)) ltac:(lia)) as Hq.
  pose proof (Z.mod_mul (2 * m) (Z.pos (2 ^ 52)) ltac:(lia)) as Hr.
  replace (2 * m * Z.pos (2 ^ 52)) with (m * 2 ^ 53) in Hq, Hr
    by (change (2 ^ 53) with (2 * Z.pos (2 ^ 52)); ring).
  unfold Z.div, Z.modulo in Hq, Hr.
  destruct (Z.div_eucl (m * 2 ^ 53) (Z.pos (2 ^ 52))) as [q r].
  now subst.
Qed.

Lemma div2_exact s p :
  Z.pos p < 2 ^ 53 ->
  Float.div (float_of_pos s p) (Float.of_Z 2) = scaled s p (-1).
Proof.
  intros Hp. pose proof (digits_le_53 p Hp) as Hd.
  rewrite of_Z_2. unfold float_of_pos, scaled, Float.div. cbn [SFdiv].
  unfold SFdiv_core_binary. cbn [Zdigits2].
  rewrite shl_digits.
  change (Z.pos (digits2_pos (2 ^ 52))) with 53.
  set (d := Z.pos (digits2_pos p)) in *.
  replace (d + Z.of_nat (Z.to_nat (53 - d))) with 53 by lia.
  rewrite fexp_normal by lia.
  replace (Z.min (53 + (d - 53) - (53 + -51) - 53) (d - 53 - -51))
    with (d - 53 - 2) by lia.
  replace (d - 53 - -51 - (d - 53 - 2)) with 53 by lia.
  rewrite div_eucl_shift.
  change (new_location (Z.pos (2 ^ 52)) 0) with loc_Exact.
  change (2 * Z.pos (shl p (Z.to_nat (53 - d))))
    with (Z.pos (shl p (S (Z.to_nat (53 - d))))).
  rewrite round_exact by (fold d; lia). fold d.
  rewrite xorb_false_r. f_equal. lia.
Qed.

Lemma mul_scaled s1 s2 p n j1 j2 :
  Z.pos (p * n) < 2 ^ 53 -> -1000 <= j1 + j2 <= 900 ->
  Float.mul (scaled s1 p j1) (scaled s2 n j2)
  = scaled (xorb s1 s2) (p * n) (j1 + j2).
Proof.
  intros Hpn Hj.
  assert (Hp : Z.pos p < 2 ^ 53) by nia.
  assert (Hn : Z.pos n < 2 ^ 53) by nia.
  pose proof (digits_le_53 _ Hp) as Hdp. pose proof (digits_le_53 _ Hn) as Hdn.
  pose proof (digits_le_53 _ Hpn) as Hdpn.
  pose proof (digits_mul_ge p n) as Hge.
  unfold scaled, Float.mul. cbn [SFmul].
  rewrite shl_mul, round_exact by lia. f_equal. lia.
Qed.

Lemma compare_int_half s p n :
  Z.pos p < 2 ^ 53 ->
  Float.compare_int (scaled s p (-1)) n
  = Some (cond_Zopp s (Z.pos p) ?= 2 * n).
Proof.
  intros Hp. pose proof (digits_le_53 p Hp) as Hd.
  unfold scaled, Float.compare_int.
  destruct (Z.pos (digits2_pos p) - 53 + -1) as [|q|q] eqn:Hq; try lia.
  f_equal.
  replace (cond_Zopp s (Z.pos (shl p (Z.to_nat (53 - Z.pos (digits2_pos p))))))
    with (cond_Zopp s (Z.pos p) * 2 ^ (53 - Z.pos (digits2_pos p))).
  2:{ rewrite shl_Z, Z2Nat.id by lia. destruct s; simpl; lia. }
  replace (n * 2 ^ Z.pos q)
    with (2 * n * 2 ^ (53 - Z.pos (digits2_pos p))).
  2:{ replace (Z.pos q) with (Z.succ (53 - Z.pos (digits2_pos p))) by lia.
      rewrite Z.pow_succ_r by lia. ring. }
  apply mul_compare_pos. apply Z.pow_pos_nonneg; lia.
Qed.

(** ** Whole numbers written as text *)

Lemma digit_code c : is_digit c = true -> (48 <= code c <= 57)%N.
Proof.
  unfold is_digit. intros H. apply andb_prop in H as [H1 H2].
  apply N.leb_le in H1. apply N.leb_le in H2. lia.
Qed.

Lemma digit_not_char c d :
  is_digit c = true -> is_digit d = false -> is_char c d = false.
Proof.
  intros Hc Hd. unfold is_char. apply N.eqb_neq. intros He.
  unfold is_digit in Hc, Hd. rewrite He in Hc. congruence.
Qed.

Lemma digit_not_space c : is_digit c = true -> is_space c = false.
Proof.
  intros H. apply digit_code in H. unfold is_space.
  repeat match goal with
         | |- context [(?a <=? ?b)%N] => destruct (N.leb_spec a b)
         | |- context [(?a =? ?b)%N] => destruct (N.eqb_spec a b)
         end; try reflexivity; lia.
Qed.

Lemma digit_to_lower c : is_digit c = true -> to_lower c = c.
Proof.
  intros H. apply digit_code in H. unfold to_lower.
  destruct (N.leb_spec 65 (code c)); [|reflexivity].
  destruct (N.leb_spec (code c) 90); [lia|reflexivity].
Qed.

Section Digits.

Variable l : list ascii.
Hypothesis Hne : l <> [].
Hypothesis Hall : forallb is_digit l = true.

Lemma digits_head : exists c l', l = c :: l' /\ is_digit c = true.
Proof.
  destruct l as [|c l']; [congruence|]. simpl in Hall.
  apply andb_prop in Hall as [Hc _]. eauto.
Qed.

Lemma digits_drop_spaces : drop_spaces l = l.
Proof.
  destruct digits_head as (c & l' & -> & Hc). simpl.
  now rewrite (digit_not_space c Hc).
Qed.

Lemma digits_strip : strip l = l.
Proof.
  unfold strip. rewrite digits_drop_spaces.
  assert (Hrev : drop_spaces (rev l) = rev l).
  { destruct (rev l) as [|c r] eqn:Hr; [reflexivity|]. simpl.
    assert (Hc : is_digit c = true).
    { rewrite forallb_forall in Hall. apply Hall. apply in_rev.
      rewrite Hr. now left. }
    now rewrite (digit_not_space c Hc). }
  rewrite Hrev. apply rev_involutive.
Qed.

Lemma digits_take_sign : take_sign l = (false, l).
Proof.
  destruct digits_head as (c & l' & -> & Hc). simpl.
  now rewrite (digit_not_char c "-" Hc eq_refl),
    (digit_not_char c "+" Hc eq_refl).
Qed.

Lemma digits_span : span_digits l = (l, []).
Proof.
  clear Hne. induction l as [|c l' IH]; [reflexivity|]. simpl in *.
  apply andb_prop in Hall as [Hc Hl]. rewrite Hc, (IH Hl). reflexivity.
Qed.

Lemma digits_lower_is w c' :
  list_ascii_of_string w = c' :: tl (list_ascii_of_string w) ->
  is_digit c' = false -> lower_is l w = false.
Proof.
  intros Hw Hc'. unfold lower_is.
  destruct (decide (map to_lower l = list_ascii_of_string w)) as [He|];
    [|reflexivity].
  destruct digits_head as (c & l' & Hl & Hc). rewrite Hl, Hw in He.
  simpl in He. injection He as He _. rewrite (digit_to_lower c Hc) in He.
  congruence.
Qed.

Lemma digits_parse_decimal : parse_decimal l = Some (digits_to_Z l, 0).
Proof.
  unfold parse_decimal. rewrite digits_span. rewrite app_nil_r.
  destruct l; [congruence|]. reflexivity.
Qed.

End Digits.

Lemma digits_strip_underscores l prev :
  forallb is_digit l = true -> is_char prev "_" = false ->
  strip_underscores prev l = Some l.
Proof.
  revert prev. induction l as [|c l' IH]; intros prev Hall Hprev; simpl.
  - now rewrite Hprev.
  - simpl in Hall. apply andb_prop in Hall as [Hc Hl].
    rewrite (digit_not_char c "_" Hc eq_refl), Hc, andb_false_r.
    rewrite (IH c Hl (digit_not_char c "_" Hc eq_refl)). reflexivity.
Qed.

Lemma of_decimal_whole m : 0 <= m -> Float.of_decimal false m 0 = Float.of_Z m.
Proof.
  intros Hm. destruct m as [|p|p]; [reflexivity| |lia].
  unfold Float.of_decimal, Float.of_Z. cbn [binary_normalize].
  change (Z.to_pos (10 ^ 0)) with 1%positive. now rewrite Pos.mul_1_r.
Qed.

Lemma fold_digits_nonneg l acc :
  forallb is_digit l = true -> 0 <= acc ->
  0 <= fold_left (fun a c => 10 * a + digit_val c) l acc.
Proof.
  revert acc. induction l as [|c l' IH]; intros acc Hall Hacc; [exact Hacc|].
  simpl in *. apply andb_prop in Hall as [Hc Hl]. apply IH; [exact Hl|].
  apply digit_code in Hc. unfold digit_val. lia.
Qed.

Lemma digits_to_Z_nonneg l :
  forallb is_digit l = true -> 0 <= digits_to_Z l.
Proof. intros H. apply fold_digits_nonneg; [exact H|lia]. Qed.

(** [float] reads a text of digits as the float of the number written. *)
Lemma float_of_digit_text s :
  digit_text s = true ->
  float_of_string s = Ok (Float.of_Z (text_value s)) /\ 0 <= text_value s.
Proof.
  unfold digit_text, text_value, float_of_string.
  set (l := list_ascii_of_string s).
  intros H.
  assert (Hne : l <> []) by (destruct l; [discriminate|congruence]).
  assert (Hall : forallb is_digit l = true) by (destruct l; [discriminate|exact H]).
  rewrite (digits_strip l Hne Hall).
  rewrite (digits_strip_underscores l "000" Hall eq_refl).
  rewrite (digits_take_sign l Hne Hall).
  rewrite (digits_lower_is l Hne Hall "inf" "i" eq_refl eq_refl).
  rewrite (digits_lower_is l Hne Hall "infinity" "i" eq_refl eq_refl).
  rewrite (digits_lower_is l Hne Hall "nan" "n" eq_refl eq_refl).
  cbn [orb]. rewrite (digits_parse_decimal l Hne Hall).
  pose proof (digits_to_Z_nonneg l Hall) as Hpos.
  split; [|exact Hpos]. now rewrite of_decimal_whole.
Qed.

Lemma mean_exact a b :
  0 < a -> 0 < b -> a + b < 2 ^ 53 ->
  float_mean (Float.of_Z a) (Float.of_Z b) = scaled false (Z.to_pos (a + b)) (-1).
Proof.
  intros Ha Hb Hab. unfold float_mean.
  rewrite (of_Z_exact a), (of_Z_exact b) by lia.
  replace (a <? 0) with false by lia. replace (b <? 0) with false by lia.
  rewrite add_exact by (rewrite Pos2Z.inj_add, !Z2Pos.id; lia).
  rewrite div2_exact by (rewrite Pos2Z.inj_add, !Z2Pos.id; lia).
  f_equal. rewrite Z2Pos.inj_add by lia. f_equal; lia.
Qed.

Lemma num_ge_int_half_product c n T :
  0 < c -> n <> 0 -> c * Z.abs n < 2 ^ 53 ->
  num_ge_int (NFloat (Float.mul (scaled false (Z.to_pos c) (-1)) (Float.of_Z n))) T
  = (2 * T <=? c * n).
Proof.
  intros Hc Hn Hb.
  assert (Hbn : Z.abs n < 2 ^ 53) by nia.
  rewrite (of_Z_exact n Hn Hbn), float_of_pos_scaled.
  rewrite mul_scaled by (rewrite ?Pos2Z.inj_mul, ?Z2Pos.id; lia).
  unfold num_ge_int. cbn [Z.add xorb].
  rewrite compare_int_half by (rewrite Pos2Z.inj_mul, !Z2Pos.id; lia).
  replace (cond_Zopp (n <? 0) (Z.pos (Z.to_pos c * Z.to_pos (Z.abs n))))
    with (c * n).
  2:{ rewrite Pos2Z.inj_mul, !Z2Pos.id by lia. destruct n; simpl; lia. }
  rewrite Z.leb_compare, (Z.compare_antisym (c * n) (2 * T)).
  now destruct (c * n ?= 2 * T).
Qed.

(** X12.  For a price range ["low-high"] of two positive whole numbers
    written in digits and an integer share count, with [(low + high) *
    shares] below 2^53 in absolute value, the midpoint and the product are
    exact: the record is kept exactly when [(low + high) * shares >=
    2 * 200,000,000], that is when the mean price times the shares reaches
    the threshold. *)
Theorem filter_exact_on_whole_ranges (d : gmap string pyval)
    (s low high : string) (n : Z) (acc : list qualifying_ipo) :
  d !! "price" = Some (PStr s) ->
  str_split "-" s = [low; high] ->
  digit_text low = true -> digit_text high = true ->
  0 < text_value low -> 0 < text_value high ->
  d !! "numberOfShares" = Some (PInt n) ->
  (text_value low + text_value high) * Z.abs n < 2 ^ 53 ->
  let mean := float_mean (Float.of_Z (text_value low))
                (Float.of_Z (text_value high)) in
  filter_step acc (PDict d)
  = Ok (if 2 * 200000000 <=? (text_value low + text_value high) * n
        then acc ++ [emit (PDict d)
                       (NFloat mean, n, NFloat (Float.mul mean (Float.of_Z n)))]
        else acc)%list.
Proof.
  intros Hd Hsplit Hlow Hhigh Ha Hb Hdn Hbound mean.
  destruct (float_of_digit_text low Hlow) as [Hfl _].
  destruct (float_of_digit_text high Hhigh) as [Hfh _].
  set (a := text_value low) in *. set (b := text_value high) in *.
  assert (Hdash : str_contains "-" s = true).
  { apply str_contains_count. pose proof (str_split_length "-" s) as Hlen.
    rewrite Hsplit in Hlen. simpl in Hlen. lia. }
  assert (Hprice : normalized_price (PDict d) = Ok (NFloat mean)).
  { unfold normalized_price. simpl field. rewrite Hd. simpl default.
    rewrite working_price_truthy
      by (apply truthy_str; now apply (str_contains_nonempty "-")).
    rewrite (working_price_range s Hdash), Hsplit, Hfl, Hfh. reflexivity. }
  assert (Hshares : normalized_shares (PDict d) = Ok n).
  { unfold normalized_shares. simpl field. rewrite Hdn. simpl default.
    destruct (Z.eq_dec n 0) as [->|Hn0]; [reflexivity|].
    rewrite working_shares_truthy; [reflexivity|].
    simpl. now destruct (Z.eqb_spec n 0). }
  destruct (Z.eq_dec n 0) as [->|Hn0].
  - rewrite Z.mul_0_r. simpl.
    destruct (falsy_shares_dropped d _ ltac:(simpl field; now rewrite Hdn) Hprice)
      as (x & _ & Hdrop & _).
    apply Hdrop.
  - assert (Hab : a + b < 2 ^ 53) by nia.
    assert (Hbn : Z.abs n < 2 ^ 53) by nia.
    rewrite filter_step_emitted. unfold emitted.
    assert (Ht : normalize (PDict d)
                 = Ok (NFloat mean, n, NFloat (Float.mul mean (Float.of_Z n)))).
    { apply normalize_parts. split; [eauto|]. split; [exact Hprice|].
      split; [exact Hshares|]. simpl.
      now rewrite small_int_converts by exact Hbn. }
    rewrite Ht. simpl. unfold meets_threshold. simpl snd.
    unfold mean at 1. rewrite (mean_exact a b Ha Hb Hab).
    rewrite num_ge_int_half_product by lia.
    unfold OFFER_AMOUNT_THRESHOLD.
    destruct (2 * 200000000 <=? (a + b) * n); simpl; [reflexivity|].
    now rewrite app_nil_r.
Qed.

(** X12, an instance: the range ["15-17"] with 20,000,000 shares. *)
Lemma filter_exact_on_whole_ranges_witness :
  exists q, filter_step [] ipo_range = Ok [q] /\
            price q = NFloat (float_mean (Float.of_Z 15) (Float.of_Z 17)) /\
            shares q = 20000000.
Proof.
  eexists. split.
  - refine (filter_exact_on_whole_ranges (fields_of ipo_range) "15-17" "15" "17"
              20000000 [] eq_refl eq_refl eq_refl eq_refl _ _ eq_refl _);
      reflexivity.
  - split; reflexivity.
Defined.
